(** * CTRF insights: multi-report aggregation, rate derivation, baseline diff
      and historical run extraction.

    Shallow embedding of
      - the standalone insights engine (aggregation, run-metric consolidation,
        run-level and test-level rate derivers, baseline differ),
      - the derivers of [src/ctrf/insights.ts], which consume the per-test map
        directly,
      - the previous-runs extractor ([extractPreviousRunsData]),
      - the string helpers registered with the template engine
        (escapeMarkdown, splitLines, sliceString, stripSuitePrefix).

    Numbers.  The counters, retry counts, durations (milliseconds) and epoch
    timestamps read from a report are modelled as integers ([Z]); in the code
    they are doubles holding integers, exact below 2^53.  Derived metrics are
    JavaScript numbers that may be non-integral or non-finite (a division can
    produce NaN or an infinity), so they live in [JsNumber]: the rational a
    double stands for, or one of the three special values.  The division and
    the multiplication by 100 of the derivers round their exact result to the
    nearest binary64 value ([roundToDouble]), as IEEE 754 arithmetic does, so
    that [toFixed2] sees the number the code prints: (23 / 160) * 100 is
    14.374999999999998 and prints as 14.37.  A number printed with two
    decimals is kept as that decimal n/100, and the subtraction of the
    baseline differ is taken on the rationals.  The exponent range of
    binary64 (overflow beyond 2^1024, subnormals) is not modelled. *)

From Stdlib Require Import ZArith QArith Qround Qpower Bool Lia Lqa Ascii.
From stdpp Require Import gmap strings list fin_maps pretty.

Local Open Scope Z_scope.

(** ** JavaScript numbers as produced by the derivers *)

Inductive JsNumber : Type :=
  | Finite (q : Q)
  | NaN
  | PosInfinity
  | NegInfinity.

Definition ofZ (z : Z) : JsNumber := Finite (inject_Z z).

(** Nearest integer, ties to the even one. *)
Definition roundHalfEven (x : Q) : Z :=
  let f := Qfloor x in
  match (x - inject_Z f ?= 1 # 2)%Q with
  | Lt => f
  | Gt => f + 1
  | Eq => if Z.even f then f else f + 1
  end.

(** The [e] with [2^e <= q < 2^(e+1)], for a positive [q]: the difference of
    the bit lengths of numerator and denominator, or one less. *)
Definition binaryExponent (q : Q) : Z :=
  let e := Z.log2 (Qnum q) - Z.log2 (Zpos (Qden q)) in
  if Qle_bool (2 ^ e) q then e else e - 1.

(** A positive [q] rounded to 53 significant bits: the nearest multiple of
    [2^(e - 52)], ties to the even multiple. *)
Definition roundSignificand (q : Q) : Q :=
  let ulp := (2 ^ (binaryExponent q - 52))%Q in
  (inject_Z (roundHalfEven (q / ulp)) * ulp)%Q.

(** The binary64 value an arithmetic operation returns for the exact result
    [q] (round to nearest, ties to even). *)
Definition roundToDouble (q : Q) : Q :=
  let r := Qred q in
  match Qnum r with
  | 0 => 0%Q
  | Z.pos _ => roundSignificand r
  | Z.neg _ => (- roundSignificand (- r))%Q
  end.

(** [a / b] on two integral counters. *)
Definition jsDivide (a b : Z) : JsNumber :=
  if b =? 0 then
    (if a =? 0 then NaN else if 0 <? a then PosInfinity else NegInfinity)
  else Finite (Qred (roundToDouble (inject_Z a / inject_Z b))).

(** [x * 100]. *)
Definition jsTimes100 (x : JsNumber) : JsNumber :=
  match x with
  | Finite q => Finite (Qred (roundToDouble (q * 100)))
  | special => special
  end.

(** [a - b]. *)
Definition jsMinus (a b : JsNumber) : JsNumber :=
  match a, b with
  | NaN, _ | _, NaN => NaN
  | Finite x, Finite y => Finite (Qred (x - y))
  | Finite _, PosInfinity => NegInfinity
  | Finite _, NegInfinity => PosInfinity
  | PosInfinity, PosInfinity => NaN
  | PosInfinity, _ => PosInfinity
  | NegInfinity, NegInfinity => NaN
  | NegInfinity, _ => NegInfinity
  end.

(** Nearest integer, ties away from zero: [toFixed] strips the sign, picks the
    larger candidate on a tie, and puts the sign back. *)
Definition roundHalfAway (x : Q) : Z :=
  if Qle_bool 0 x then Qfloor (x + (1 # 2)) else - Qfloor (- x + (1 # 2)).

(** [Number(x.toFixed(2))]: NaN and the infinities print as their names and
    parse back to themselves. *)
Definition toFixed2 (x : JsNumber) : JsNumber :=
  match x with
  | Finite q => Finite (Qred (roundHalfAway (q * 100) # 100))
  | special => special
  end.

(** [Number.isFinite]. *)
Definition isFinite (x : JsNumber) : bool :=
  match x with Finite _ => true | _ => false end.

(** ** Report model (the fields the engine reads) *)

Inductive CtrfTestState : Type :=
  | passed
  | failed
  | skipped
  | pending
  | other.

#[global] Instance CtrfTestState_eq_dec : EqDecision CtrfTestState.
Proof. solve_decision. Defined.

Record InsightsMetric : Type := mkMetric {
  current : JsNumber;
  previous : JsNumber;
  change : JsNumber
}.

Record CtrfTest : Type := mkTest {
  name : string;
  status : CtrfTestState;
  duration : Z;
  retries : option Z;      (* retries?: number *)
  flaky : option bool      (* flaky?: boolean *)
}.

Record Summary : Type := mkSummary {
  s_tests : Z;
  s_passed : Z;
  s_failed : Z;
  s_skipped : Z;
  s_pending : Z;
  s_other : Z;
  s_start : Z;
  s_stop : Z
}.

Record CtrfEnvironment : Type := mkEnvironment {
  buildNumber : option string;
  buildUrl : option string
}.

(** What a deserialized report may hold under [results.tests]. *)
Inductive TestsField : Type :=
  | TestsMissing                       (* undefined / null *)
  | TestsNotArray                      (* some value that is not an array *)
  | TestsArray (ts : list CtrfTest).

(** [summary] is mandatory in the declared type and always there in the
    model.  Of the ways a deserialized report can depart from its type the
    model has the two that [validateReportForInsights] tests for: no
    [results], and a [results.tests] that is not an array. *)
Record Results : Type := mkResults {
  summary : Summary;
  tests : TestsField;
  environment : option CtrfEnvironment
}.

(** Base run-level metrics aggregated across multiple reports. *)
Record AggregatedRunMetrics : Type := mkRunMetrics {
  totalAttempts : Z;
  totalAttemptsFailed : Z;
  totalResults : Z;
  totalResultsFailed : Z;
  totalResultsPassed : Z;
  totalResultsSkipped : Z;
  totalResultsFlaky : Z;
  totalResultsDuration : Z;
  reportsAnalyzed : Z
}.

(** [AggregatedTestMetrics extends AggregatedRunMetrics]. *)
Record AggregatedTestMetrics : Type := mkTestMetrics {
  runMetrics :> AggregatedRunMetrics;
  appearsInRuns : Z
}.

(** [extra?: Record<string, unknown>]: the only object the engine stores
    there is the counter bundle without its [reportsAnalyzed] key. *)
Record RelevantMetrics : Type := mkRelevantMetrics {
  x_totalAttempts : Z;
  x_totalAttemptsFailed : Z;
  x_totalResults : Z;
  x_totalResultsFailed : Z;
  x_totalResultsPassed : Z;
  x_totalResultsSkipped : Z;
  x_totalResultsFlaky : Z;
  x_totalResultsDuration : Z
}.

Record Insights : Type := mkInsights {
  flakyRate : InsightsMetric;
  failRate : InsightsMetric;
  skippedRate : InsightsMetric;
  averageTestDuration : InsightsMetric;
  averageRunDuration : InsightsMetric;
  i_reportsAnalyzed : Z;
  extra : option RelevantMetrics
}.

Record CtrfReport : Type := mkReport {
  results : option Results;            (* [report?.results] may be absent *)
  insights : option Insights
}.

(** ** Utility functions *)

(** Truthiness of an optional boolean and of an optional number. *)
Definition truthyFlag (b : option bool) : bool := default false b.
Definition truthyNumber (n : option Z) : bool :=
  match n with Some z => negb (z =? 0) | None => false end.

Definition isTestFlaky (test : CtrfTest) : bool :=
  truthyFlag (flaky test)
  || (truthyNumber (retries test)
      && match retries test with Some r => 0 <? r | None => false end
      && bool_decide (status test = passed))
  || false.

Definition validateReportForInsights (report : CtrfReport) : bool :=
  match results report with
  | Some res => match tests res with TestsArray _ => true | _ => false end
  | None => false
  end.

(** [report.results.tests], read after the validation guard. *)
Definition reportTests (report : CtrfReport) : list CtrfTest :=
  match results report with
  | Some res => match tests res with TestsArray ts => ts | _ => [] end
  | None => []
  end.

(** [n || 0] on an optional number. *)
Definition orZero (n : option Z) : Z :=
  if truthyNumber n then default 0 n else 0.

(** ** Per-test metrics aggregator *)

(** The compound assignments [metrics.<field> += k]. *)
Definition addTotalAttempts (k : Z) (m : AggregatedRunMetrics) :=
  mkRunMetrics (totalAttempts m + k) (totalAttemptsFailed m) (totalResults m)
    (totalResultsFailed m) (totalResultsPassed m) (totalResultsSkipped m)
    (totalResultsFlaky m) (totalResultsDuration m) (reportsAnalyzed m).
Definition addTotalAttemptsFailed (k : Z) (m : AggregatedRunMetrics) :=
  mkRunMetrics (totalAttempts m) (totalAttemptsFailed m + k) (totalResults m)
    (totalResultsFailed m) (totalResultsPassed m) (totalResultsSkipped m)
    (totalResultsFlaky m) (totalResultsDuration m) (reportsAnalyzed m).
Definition addTotalResults (k : Z) (m : AggregatedRunMetrics) :=
  mkRunMetrics (totalAttempts m) (totalAttemptsFailed m) (totalResults m + k)
    (totalResultsFailed m) (totalResultsPassed m) (totalResultsSkipped m)
    (totalResultsFlaky m) (totalResultsDuration m) (reportsAnalyzed m).
Definition addTotalResultsFailed (k : Z) (m : AggregatedRunMetrics) :=
  mkRunMetrics (totalAttempts m) (totalAttemptsFailed m) (totalResults m)
    (totalResultsFailed m + k) (totalResultsPassed m) (totalResultsSkipped m)
    (totalResultsFlaky m) (totalResultsDuration m) (reportsAnalyzed m).
Definition addTotalResultsPassed (k : Z) (m : AggregatedRunMetrics) :=
  mkRunMetrics (totalAttempts m) (totalAttemptsFailed m) (totalResults m)
    (totalResultsFailed m) (totalResultsPassed m + k) (totalResultsSkipped m)
    (totalResultsFlaky m) (totalResultsDuration m) (reportsAnalyzed m).
Definition addTotalResultsSkipped (k : Z) (m : AggregatedRunMetrics) :=
  mkRunMetrics (totalAttempts m) (totalAttemptsFailed m) (totalResults m)
    (totalResultsFailed m) (totalResultsPassed m) (totalResultsSkipped m + k)
    (totalResultsFlaky m) (totalResultsDuration m) (reportsAnalyzed m).
Definition addTotalResultsFlaky (k : Z) (m : AggregatedRunMetrics) :=
  mkRunMetrics (totalAttempts m) (totalAttemptsFailed m) (totalResults m)
    (totalResultsFailed m) (totalResultsPassed m) (totalResultsSkipped m)
    (totalResultsFlaky m + k) (totalResultsDuration m) (reportsAnalyzed m).
Definition addTotalResultsDuration (k : Z) (m : AggregatedRunMetrics) :=
  mkRunMetrics (totalAttempts m) (totalAttemptsFailed m) (totalResults m)
    (totalResultsFailed m) (totalResultsPassed m) (totalResultsSkipped m)
    (totalResultsFlaky m) (totalResultsDuration m + k) (reportsAnalyzed m).

Definition zeroRunMetrics : AggregatedRunMetrics :=
  mkRunMetrics 0 0 0 0 0 0 0 0 0.

(** The object stored under a name on its first observation. *)
Definition emptyMetrics : AggregatedTestMetrics :=
  mkTestMetrics zeroRunMetrics 0.

(** Body of the inner loop, on the entry fetched for [test.name]. *)
Definition recordTest (test : CtrfTest) (metrics : AggregatedTestMetrics)
  : AggregatedTestMetrics :=
  let isPassed := bool_decide (status test = passed) in
  let isFailed := bool_decide (status test = failed) in
  let isSkipped := bool_decide (status test = skipped) in
  let isPending := bool_decide (status test = pending) in
  let isOther := bool_decide (status test = other) in
  let m := runMetrics metrics in
  let m := addTotalResults 1 m in
  let m := addTotalAttempts (1 + orZero (retries test)) m in
  let m := addTotalAttemptsFailed (orZero (retries test)) m in
  let m :=
    if isFailed then
      addTotalAttemptsFailed (1 + orZero (retries test))
        (addTotalResultsFailed 1 m)
    else if isPassed then addTotalResultsPassed 1 m
    else if isSkipped then addTotalResultsSkipped 1 m
    else if isPending then addTotalResultsSkipped 1 m
    else if isOther then addTotalResultsSkipped 1 m
    else m in
  let m := if isTestFlaky test then addTotalResultsFlaky 1 m else m in
  let m := addTotalResultsDuration (orZero (Some (duration test))) m in
  mkTestMetrics m (appearsInRuns metrics).

(** One iteration of the inner loop: create the entry when the name is new,
    fetch it, update it in place. *)
Definition tallyTest (metricsMap : gmap string AggregatedTestMetrics)
    (test : CtrfTest) : gmap string AggregatedTestMetrics :=
  let testName := name test in
  let metricsMap :=
    if bool_decide (is_Some (metricsMap !! testName)) then metricsMap
    else <[testName := emptyMetrics]> metricsMap in
  match metricsMap !! testName with
  | Some metrics => <[testName := recordTest test metrics]> metricsMap
  | None => metricsMap
  end.

(** [Set.prototype.add]: insertion-ordered, no duplicates. *)
Definition setAdd (s : list string) (x : string) : list string :=
  if bool_decide (x ∈ s) then s else s ++ [x].

Definition testsInThisReport (ts : list CtrfTest) : list string :=
  foldl (fun s test => setAdd s (name test)) [] ts.

(** [metrics.appearsInRuns += 1] on the entry of [testName]. *)
Definition markAppearance (metricsMap : gmap string AggregatedTestMetrics)
    (testName : string) : gmap string AggregatedTestMetrics :=
  match metricsMap !! testName with
  | Some metrics =>
      <[testName := mkTestMetrics (runMetrics metrics) (appearsInRuns metrics + 1)]>
        metricsMap
  | None => metricsMap
  end.

(** One iteration of the outer loop. *)
Definition foldReport (metricsMap : gmap string AggregatedTestMetrics)
    (report : CtrfReport) : gmap string AggregatedTestMetrics :=
  if negb (validateReportForInsights report) then metricsMap
  else
    let metricsMap := foldl tallyTest metricsMap (reportTests report) in
    foldl markAppearance metricsMap (testsInThisReport (reportTests report)).

Definition aggregateTestMetricsAcrossReports (reports : list CtrfReport)
  : gmap string AggregatedTestMetrics :=
  foldl foldReport ∅ reports.

(** ** Consolidation and run-level derivers (standalone engine) *)

Definition consolidateTestMetricsToRunMetrics
    (metricsMap : gmap string AggregatedTestMetrics) : AggregatedRunMetrics :=
  let sums :=
    map_fold (fun _ (metrics : AggregatedTestMetrics) acc =>
      addTotalResultsDuration (totalResultsDuration metrics)
       (addTotalResultsFlaky (totalResultsFlaky metrics)
        (addTotalResultsSkipped (totalResultsSkipped metrics)
         (addTotalResultsPassed (totalResultsPassed metrics)
          (addTotalResultsFailed (totalResultsFailed metrics)
           (addTotalResults (totalResults metrics)
            (addTotalAttemptsFailed (totalAttemptsFailed metrics)
             (addTotalAttempts (totalAttempts metrics) acc))))))))
      zeroRunMetrics metricsMap in
  mkRunMetrics (totalAttempts sums) (totalAttemptsFailed sums)
    (totalResults sums) (totalResultsFailed sums) (totalResultsPassed sums)
    (totalResultsSkipped sums) (totalResultsFlaky sums)
    (totalResultsDuration sums) (Z.of_nat (size metricsMap)).

Definition calculateFlakyRateFromMetrics (runMetrics : AggregatedRunMetrics)
  : JsNumber :=
  if totalAttempts runMetrics =? 0 then ofZ 0
  else toFixed2 (jsTimes100
         (jsDivide (totalResultsFlaky runMetrics) (totalAttempts runMetrics))).

Definition calculateFailRateFromMetrics (runMetrics : AggregatedRunMetrics)
  : JsNumber :=
  if totalResults runMetrics =? 0 then ofZ 0
  else toFixed2 (jsTimes100
         (jsDivide (totalResultsFailed runMetrics) (totalResults runMetrics))).

Definition calculateSkippedRateFromMetrics (runMetrics : AggregatedRunMetrics)
  : JsNumber :=
  if totalResults runMetrics =? 0 then ofZ 0
  else toFixed2 (jsTimes100
         (jsDivide (totalResultsSkipped runMetrics) (totalResults runMetrics))).

Definition calculateAverageTestDurationFromMetrics
    (runMetrics : AggregatedRunMetrics) : JsNumber :=
  if totalResults runMetrics =? 0 then ofZ 0
  else toFixed2
         (jsDivide (totalResultsDuration runMetrics) (totalResults runMetrics)).

Definition calculateAverageRunDurationFromMetrics
    (runMetrics : AggregatedRunMetrics) : JsNumber :=
  if reportsAnalyzed runMetrics =? 0 then ofZ 0
  else toFixed2
         (jsDivide (totalResultsDuration runMetrics) (reportsAnalyzed runMetrics)).

Definition currentOnly (x : JsNumber) : InsightsMetric :=
  mkMetric x (ofZ 0) (ofZ 0).

(** [const { reportsAnalyzed, ...relevantMetrics } = runMetrics]. *)
Definition relevantMetrics (m : AggregatedRunMetrics) : RelevantMetrics :=
  mkRelevantMetrics (totalAttempts m) (totalAttemptsFailed m) (totalResults m)
    (totalResultsFailed m) (totalResultsPassed m) (totalResultsSkipped m)
    (totalResultsFlaky m) (totalResultsDuration m).

Definition calculateCurrentInsights (currentReport : CtrfReport)
    (previousReports : list CtrfReport) : Insights :=
  let allReports := currentReport :: previousReports in
  let testMetrics := aggregateTestMetricsAcrossReports allReports in
  let runMetrics := consolidateTestMetricsToRunMetrics testMetrics in
  mkInsights
    (currentOnly (calculateFlakyRateFromMetrics runMetrics))
    (currentOnly (calculateFailRateFromMetrics runMetrics))
    (currentOnly (calculateSkippedRateFromMetrics runMetrics))
    (currentOnly (calculateAverageTestDurationFromMetrics runMetrics))
    (currentOnly (calculateAverageRunDurationFromMetrics runMetrics))
    (Z.of_nat (length allReports))
    (Some (relevantMetrics runMetrics)).

(** ** Test-level derivers *)

Definition calculateTestFlakyRate (testName : string)
    (testMetrics : AggregatedTestMetrics) : InsightsMetric :=
  let current :=
    if totalResults testMetrics =? 0 then ofZ 0
    else toFixed2 (jsTimes100
           (jsDivide (totalResultsFlaky testMetrics) (totalResults testMetrics))) in
  mkMetric current (ofZ 0) (ofZ 0).

Definition calculateTestFailRate (testName : string)
    (testMetrics : AggregatedTestMetrics) : InsightsMetric :=
  let current :=
    if totalResults testMetrics =? 0 then ofZ 0
    else toFixed2 (jsTimes100
           (jsDivide (totalResultsFailed testMetrics) (totalResults testMetrics))) in
  mkMetric current (ofZ 0) (ofZ 0).

Definition calculateTestSkippedRate (testName : string)
    (testMetrics : AggregatedTestMetrics) : InsightsMetric :=
  let current :=
    if totalResults testMetrics =? 0 then ofZ 0
    else toFixed2 (jsTimes100
           (jsDivide (totalResultsSkipped testMetrics) (totalResults testMetrics))) in
  mkMetric current (ofZ 0) (ofZ 0).

Definition calculateTestAverageDuration (testName : string)
    (testMetrics : AggregatedTestMetrics) : InsightsMetric :=
  let current :=
    if totalResults testMetrics =? 0 then ofZ 0
    else toFixed2
           (jsDivide (totalResultsDuration testMetrics) (totalResults testMetrics)) in
  mkMetric current (ofZ 0) (ofZ 0).

(** ** Baseline differ *)

Definition baselineDiagnostic : string :=
  "Both reports must have insights populated".

Definition diffMetric (cur prev : InsightsMetric) : InsightsMetric :=
  mkMetric (current cur) (current prev)
    (toFixed2 (jsMinus (current cur) (current prev))).

(** The result is paired with the lines written to the console.  The early
    return hands back [currentReport.insights] under a type assertion, so the
    value may be [undefined] ([None]). *)
Definition calculateReportInsightsBaseline
    (currentReport previousReport : CtrfReport)
  : option Insights * list string :=
  match insights currentReport, insights previousReport with
  | Some currentInsights, Some previousInsights =>
      (Some (mkInsights
         (diffMetric (flakyRate currentInsights) (flakyRate previousInsights))
         (diffMetric (failRate currentInsights) (failRate previousInsights))
         (diffMetric (skippedRate currentInsights) (skippedRate previousInsights))
         (diffMetric (averageTestDuration currentInsights)
                     (averageTestDuration previousInsights))
         (diffMetric (averageRunDuration currentInsights)
                     (averageRunDuration previousInsights))
         (i_reportsAnalyzed currentInsights)
         (extra currentInsights)), [])
  | _, _ => (insights currentReport, [baselineDiagnostic])
  end.

(** ** Derivers of src/ctrf/insights.ts

    This engine shares the aggregator above (its record calls the duration
    counter [totalDuration] and the appearance counter [appearsInReports]) and
    sums the counters it needs inside each deriver. *)

Module CtrfInsights.

Definition sumOver (f : AggregatedTestMetrics -> Z)
    (metricsMap : gmap string AggregatedTestMetrics) : Z :=
  map_fold (fun _ metrics acc => acc + f metrics) 0 metricsMap.

Definition calculateFlakyRateFromMetrics
    (metricsMap : gmap string AggregatedTestMetrics) : JsNumber :=
  let attempts := sumOver totalAttempts metricsMap in
  let resultsFlaky := sumOver totalResultsFlaky metricsMap in
  if attempts =? 0 then ofZ 0
  else toFixed2 (jsTimes100 (jsDivide resultsFlaky attempts)).

Definition calculateFailRateFromMetrics
    (metricsMap : gmap string AggregatedTestMetrics) : JsNumber :=
  let results := sumOver totalResults metricsMap in
  let resultsFailed := sumOver totalResultsFailed metricsMap in
  if results =? 0 then ofZ 0
  else toFixed2 (jsTimes100 (jsDivide resultsFailed results)).

Definition calculateSkippedRateFromMetrics
    (metricsMap : gmap string AggregatedTestMetrics) : JsNumber :=
  let results := sumOver totalResults metricsMap in
  let resultsSkipped := sumOver totalResultsSkipped metricsMap in
  if results =? 0 then ofZ 0
  else toFixed2 (jsTimes100 (jsDivide resultsSkipped results)).

Definition calculateAverageTestDurationFromMetrics
    (metricsMap : gmap string AggregatedTestMetrics) : JsNumber :=
  let totalDuration := sumOver totalResultsDuration metricsMap in
  let results := sumOver totalResults metricsMap in
  if results =? 0 then ofZ 0
  else toFixed2 (jsDivide totalDuration results).

(** Accumulator: [(totalRunDuration, validReports)]. *)
Definition calculateAverageRunDurationFromReports (reports : list CtrfReport)
  : JsNumber :=
  let step (acc : Z * Z) (report : CtrfReport) : Z * Z :=
    if negb (validateReportForInsights report) then acc
    else match results report with
         | Some res =>
             let summary := summary res in
             if negb (s_start summary =? 0) && negb (s_stop summary =? 0)
                && (s_start summary <? s_stop summary)
             then (acc.1 + (s_stop summary - s_start summary), acc.2 + 1)
             else acc
         | None => acc
         end in
  let totals := foldl step (0, 0) reports in
  if totals.2 =? 0 then ofZ 0
  else toFixed2 (jsDivide totals.1 totals.2).

(** The snapshot of this engine has the five metrics only. *)
Record Insights : Type := mkInsights {
  flakyRate : InsightsMetric;
  failRate : InsightsMetric;
  skippedRate : InsightsMetric;
  averageTestDuration : InsightsMetric;
  averageRunDuration : InsightsMetric
}.

Definition calculateFlakyRateInsight (currentReport : CtrfReport)
    (previousReports : list CtrfReport) : InsightsMetric :=
  let allReports := currentReport :: previousReports in
  let metrics := aggregateTestMetricsAcrossReports allReports in
  let current := calculateFlakyRateFromMetrics metrics in
  mkMetric current (ofZ 0) (ofZ 0).

Definition calculateFailRateInsight (currentReport : CtrfReport)
    (previousReports : list CtrfReport) : InsightsMetric :=
  let allReports := currentReport :: previousReports in
  let metrics := aggregateTestMetricsAcrossReports allReports in
  let current := calculateFailRateFromMetrics metrics in
  mkMetric current (ofZ 0) (ofZ 0).

Definition calculateSkippedRateInsight (currentReport : CtrfReport)
    (previousReports : list CtrfReport) : InsightsMetric :=
  let allReports := currentReport :: previousReports in
  let metrics := aggregateTestMetricsAcrossReports allReports in
  let current := calculateSkippedRateFromMetrics metrics in
  mkMetric current (ofZ 0) (ofZ 0).

Definition calculateAverageTestDurationInsight (currentReport : CtrfReport)
    (previousReports : list CtrfReport) : InsightsMetric :=
  let allReports := currentReport :: previousReports in
  let metrics := aggregateTestMetricsAcrossReports allReports in
  let current := calculateAverageTestDurationFromMetrics metrics in
  mkMetric current (ofZ 0) (ofZ 0).

Definition calculateAverageRunDurationInsight (currentReport : CtrfReport)
    (previousReports : list CtrfReport) : InsightsMetric :=
  let allReports := currentReport :: previousReports in
  let current := calculateAverageRunDurationFromReports allReports in
  mkMetric current (ofZ 0) (ofZ 0).

Definition calculateCurrentInsights (currentReport : CtrfReport)
    (previousReports : list CtrfReport) : Insights :=
  let allReports := currentReport :: previousReports in
  let metrics := aggregateTestMetricsAcrossReports allReports in
  mkInsights
    (mkMetric (calculateFlakyRateFromMetrics metrics) (ofZ 0) (ofZ 0))
    (mkMetric (calculateFailRateFromMetrics metrics) (ofZ 0) (ofZ 0))
    (mkMetric (calculateSkippedRateFromMetrics metrics) (ofZ 0) (ofZ 0))
    (mkMetric (calculateAverageTestDurationFromMetrics metrics) (ofZ 0) (ofZ 0))
    (mkMetric (calculateAverageRunDurationFromReports allReports) (ofZ 0) (ofZ 0)).

End CtrfInsights.

(** ** Previous-runs extractor *)

Inductive RunStatus : Type :=
  | runPassed      (* 'passed' *)
  | runFailed      (* 'failed' *)
  | runMixed.      (* 'mixed' *)

Record PreviousRunData : Type := mkPreviousRun {
  run_id : string;
  run_date : Z;
  run_status : RunStatus;
  run_passed : Z;
  run_failed : Z;
  run_skipped : Z;
  run_flaky : nat;
  run_duration : Z;
  run_buildUrl : option string;
  run_buildNumber : option string
}.

(** Truthiness of an optional string: absent and empty are both falsy. *)
Definition truthyString (s : option string) : bool :=
  match s with Some str => negb (bool_decide (str = "")) | None => false end.

(** A report of the declared [CtrfReport] type, the parameter type of the
    extractor: [results] with its summary and an array under [tests], the
    environment optional. *)
Definition hasDeclaredType (report : CtrfReport) : Prop :=
  ∃ sm ts env, results report = Some (mkResults sm (TestsArray ts) env).

(** The callback of [reports.map]; [None] stands for the TypeError raised
    when [results] is absent or [results.tests] has no [filter].  (A results
    object without [summary] would raise at [summary.stop]; the report model
    has no such value.) *)
Definition previousRunOf (report : CtrfReport) (index : nat)
  : option PreviousRunData :=
  match results report with
  | None => None
  | Some res =>
      let summary := summary res in
      let environment := environment res in
      match tests res with
      | TestsArray ts =>
          let flakyCount :=
            length (filter (fun test => flaky test = Some true) ts) in
          let duration := s_stop summary - s_start summary in
          let status :=
            if 0 <? s_failed summary then
              (if 0 <? s_passed summary then runMixed else runFailed)
            else runPassed in
          let envBuildNumber := environment ≫= buildNumber in
          let id :=
            if truthyString envBuildNumber then default "" envBuildNumber
            else pretty (s_start summary) +:+ "_" +:+ pretty index in
          Some (mkPreviousRun id (s_start summary) status
                  (s_passed summary) (s_failed summary) (s_skipped summary)
                  flakyCount duration
                  (environment ≫= buildUrl) envBuildNumber)
      | _ => None
      end
  end.

Fixpoint extractFrom (index : nat) (reports : list CtrfReport)
  : option (list PreviousRunData) :=
  match reports with
  | [] => Some []
  | report :: rest =>
      record ← previousRunOf report index;
      records ← extractFrom (S index) rest;
      Some (record :: records)
  end.

Definition extractPreviousRunsData (reports : list CtrfReport)
  : option (list PreviousRunData) :=
  extractFrom 0 reports.

(** ** Per-name view of the aggregation

    What the loops do to the entry of one fixed name, used to state and prove
    the properties of the aggregator. *)

Definition bumpAppears (metrics : AggregatedTestMetrics) : AggregatedTestMetrics :=
  mkTestMetrics (runMetrics metrics) (appearsInRuns metrics + 1).

Definition tallyView (n : string) (entry : option AggregatedTestMetrics)
    (test : CtrfTest) : option AggregatedTestMetrics :=
  if decide (name test = n)
  then Some (recordTest test (default emptyMetrics entry))
  else entry.

(** Sum of [f] over the tests of a list that carry the name [n]. *)
Definition sumFor (f : CtrfTest -> Z) (n : string) (ts : list CtrfTest) : Z :=
  foldr (fun test acc => if decide (name test = n) then f test + acc else acc)
        0 ts.

(** ** Closed form of the aggregation

    What each counter of an entry amounts to, as a sum over the tests that
    carry the entry's name. *)

(** The tests a report contributes: none when it fails validation. *)
Definition testsOfValid (report : CtrfReport) : list CtrfTest :=
  if validateReportForInsights report then reportTests report else [].

(** Tests of all reports that pass validation, in report order. *)
Definition testsSeen (reports : list CtrfReport) : list CtrfTest :=
  flat_map testsOfValid reports.

(** Contribution of one test to each counter of its entry. *)
Definition attemptsOf (test : CtrfTest) : Z := 1 + default 0 (retries test).
Definition attemptsFailedOf (test : CtrfTest) : Z :=
  default 0 (retries test)
  + (if bool_decide (status test = failed) then 1 + default 0 (retries test) else 0).
Definition failedOf (test : CtrfTest) : Z :=
  if bool_decide (status test = failed) then 1 else 0.
Definition passedOf (test : CtrfTest) : Z :=
  if bool_decide (status test = passed) then 1 else 0.
Definition skippedOf (test : CtrfTest) : Z :=
  if bool_decide (status test = skipped ∨ status test = pending
                  ∨ status test = other) then 1 else 0.
Definition flakyOf (test : CtrfTest) : Z := if isTestFlaky test then 1 else 0.

(** Number of reports that pass validation and hold a test named [n]. *)
Definition runsContaining (n : string) (reports : list CtrfReport) : nat :=
  length (filter (fun report => n ∈ map name (testsOfValid report)) reports).

(** The entry of [n] built from the tests [ts], appearing in [runs] reports. *)
Definition entryOf (n : string) (ts : list CtrfTest) (runs : Z)
  : AggregatedTestMetrics :=
  mkTestMetrics
    (mkRunMetrics (sumFor attemptsOf n ts) (sumFor attemptsFailedOf n ts)
       (sumFor (fun _ => 1) n ts) (sumFor failedOf n ts) (sumFor passedOf n ts)
       (sumFor skippedOf n ts) (sumFor flakyOf n ts) (sumFor duration n ts) 0)
    runs.

(** Counter-wise sum of two entries. *)
Definition addEntry (a b : AggregatedTestMetrics) : AggregatedTestMetrics :=
  mkTestMetrics
    (mkRunMetrics (totalAttempts a + totalAttempts b)
       (totalAttemptsFailed a + totalAttemptsFailed b)
       (totalResults a + totalResults b)
       (totalResultsFailed a + totalResultsFailed b)
       (totalResultsPassed a + totalResultsPassed b)
       (totalResultsSkipped a + totalResultsSkipped b)
       (totalResultsFlaky a + totalResultsFlaky b)
       (totalResultsDuration a + totalResultsDuration b)
       (reportsAnalyzed a + reportsAnalyzed b))
    (appearsInRuns a + appearsInRuns b).


Definition expectedEntry (n : string) (reports : list CtrfReport)
  : AggregatedTestMetrics :=
  entryOf n (testsSeen reports) (Z.of_nat (runsContaining n reports)).


(** Sum of [f] over all tests of a list. *)
Definition sumAll (f : CtrfTest -> Z) (ts : list CtrfTest) : Z :=
  foldr (fun test acc => f test + acc) 0 ts.


(** A finite number between 0 and 100. *)
Definition inPercentRange (x : JsNumber) : bool :=
  match x with
  | Finite q => Qle_bool 0 q && Qle_bool q 100
  | _ => false
  end.


(** ** Single-metric entry points of the standalone engine *)

Definition calculateFlakyRateInsight (currentReport : CtrfReport)
    (previousReports : list CtrfReport) : InsightsMetric :=
  let allReports := currentReport :: previousReports in
  let testMetrics := aggregateTestMetricsAcrossReports allReports in
  let runMetrics := consolidateTestMetricsToRunMetrics testMetrics in
  let current := calculateFlakyRateFromMetrics runMetrics in
  mkMetric current (ofZ 0) (ofZ 0).

Definition calculateFailRateInsight (currentReport : CtrfReport)
    (previousReports : list CtrfReport) : InsightsMetric :=
  let allReports := currentReport :: previousReports in
  let testMetrics := aggregateTestMetricsAcrossReports allReports in
  let runMetrics := consolidateTestMetricsToRunMetrics testMetrics in
  let current := calculateFailRateFromMetrics runMetrics in
  mkMetric current (ofZ 0) (ofZ 0).

Definition calculateSkippedRateInsight (currentReport : CtrfReport)
    (previousReports : list CtrfReport) : InsightsMetric :=
  let allReports := currentReport :: previousReports in
  let testMetrics := aggregateTestMetricsAcrossReports allReports in
  let runMetrics := consolidateTestMetricsToRunMetrics testMetrics in
  let current := calculateSkippedRateFromMetrics runMetrics in
  mkMetric current (ofZ 0) (ofZ 0).

Definition calculateAverageTestDurationInsight (currentReport : CtrfReport)
    (previousReports : list CtrfReport) : InsightsMetric :=
  let allReports := currentReport :: previousReports in
  let testMetrics := aggregateTestMetricsAcrossReports allReports in
  let runMetrics := consolidateTestMetricsToRunMetrics testMetrics in
  let current := calculateAverageTestDurationFromMetrics runMetrics in
  mkMetric current (ofZ 0) (ofZ 0).

Definition calculateAverageRunDurationInsight (currentReport : CtrfReport)
    (previousReports : list CtrfReport) : InsightsMetric :=
  let allReports := currentReport :: previousReports in
  let testMetrics := aggregateTestMetricsAcrossReports allReports in
  let runMetrics := consolidateTestMetricsToRunMetrics testMetrics in
  let current := calculateAverageRunDurationFromMetrics runMetrics in
  mkMetric current (ofZ 0) (ofZ 0).

(** ** Numbers with two decimals *)

(** The number [n / 100]. *)
Definition hundredthsOf (n : Z) : JsNumber := Finite (Qred (n # 100)).

(** Unary minus. *)
Definition jsNegate (x : JsNumber) : JsNumber :=
  match x with
  | Finite q => Finite (Qred (- q))
  | NaN => NaN
  | PosInfinity => NegInfinity
  | NegInfinity => PosInfinity
  end.


(** ** Run timing, as read by src/ctrf/insights.ts *)

(** The duration a report contributes to the average run duration: its
    summary needs a truthy start, a truthy stop and stop > start. *)
Definition runDurationOf (report : CtrfReport) : option Z :=
  if validateReportForInsights report then
    match results report with
    | Some res =>
        if negb (s_start (summary res) =? 0) && negb (s_stop (summary res) =? 0)
           && (s_start (summary res) <? s_stop (summary res))
        then Some (s_stop (summary res) - s_start (summary res))
        else None
    | None => None
    end
  else None.

Definition runDurations (reports : list CtrfReport) : list Z :=
  omap runDurationOf reports.

Definition sumZ (l : list Z) : Z := foldr Z.add 0 l.


(** ** Test-level insights attached to the current report *)

Record TestInsights : Type := mkTestInsights {
  ti_flakyRate : InsightsMetric;
  ti_failRate : InsightsMetric;
  ti_skippedRate : InsightsMetric;
  ti_averageTestDuration : InsightsMetric;
  ti_appearsInRuns : Z;
  ti_extra : option RelevantMetrics
}.

Definition calculateTestInsights (testName : string)
    (testMetrics : AggregatedTestMetrics) : TestInsights :=
  mkTestInsights
    (calculateTestFlakyRate testName testMetrics)
    (calculateTestFailRate testName testMetrics)
    (calculateTestSkippedRate testName testMetrics)
    (calculateTestAverageDuration testName testMetrics)
    (appearsInRuns testMetrics)
    (Some (relevantMetrics testMetrics)).

(** A test of the returned report: the test as it came, and the [insights]
    key when the callback set it.  (The [insights] key a test may already
    carry on input is read by nothing and is not part of [CtrfTest].) *)
Record TestWithInsights : Type := mkTestWithInsights {
  tw_test : CtrfTest;
  tw_insights : option TestInsights
}.

(** The returned report: every key copied from the current report, and the
    new [results.tests] array, [None] when the report is handed back as it
    is. *)
Record ReportWithTestInsights : Type := mkReportWithTestInsights {
  rw_report : CtrfReport;
  rw_tests : option (list TestWithInsights)
}.

Definition addTestInsightsToCurrentReport (currentReport : CtrfReport)
    (previousReports : list CtrfReport) : ReportWithTestInsights :=
  if negb (validateReportForInsights currentReport)
  then mkReportWithTestInsights currentReport None
  else
    let allReports := currentReport :: previousReports in
    let testMetrics := aggregateTestMetricsAcrossReports allReports in
    mkReportWithTestInsights currentReport
      (Some (map (fun test =>
               let testName := name test in
               match testMetrics !! testName with
               | Some metrics =>
                   mkTestWithInsights test
                     (Some (calculateTestInsights testName metrics))
               | None => mkTestWithInsights test None
               end) (reportTests currentReport))).


(** Whether a character occurs in a string. *)
Fixpoint occursIn (c : Ascii.ascii) (s : string) : bool :=
  match s with
  | EmptyString => false
  | String c' rest => bool_decide (c = c') || occursIn c rest
  end.


(** ** Template helpers

    The callbacks registered with the template engine.  A JavaScript string
    is the list of its UTF-16 code units. *)

Module Helpers.

Abbreviation JsString := (list N).

(** Code units of an ASCII literal. *)
Definition units (s : string) : JsString :=
  map N_of_ascii (String.list_ascii_of_string s).

(** The character class of the pattern: \ * _ { } [ ] ( ) # + - . ! *)
Definition markdownSpecials : JsString := units "\*_{}[]()#+-.!".

(** [str.replace(/([\\*_{}[\]()#+\-.!])/g, '\\$1')] *)
Definition escapeMarkdown (str : JsString) : JsString :=
  flat_map (fun u => if bool_decide (u ∈ markdownSpecials)
                     then [92%N; u] else [u]) str.

(** [str.split('\n')]: the pieces between line feeds, at least one piece. *)
Fixpoint splitNewline (str : JsString) : list JsString :=
  match str with
  | [] => [[]]
  | u :: rest =>
      if bool_decide (u = 10%N) then [] :: splitNewline rest
      else match splitNewline rest with
           | line :: lines => (u :: line) :: lines
           | [] => [[u]]
           end
  end.

(** White space and line terminators, the code units [trim] strips. *)
Definition isWhiteSpace (u : N) : bool :=
  bool_decide (u ∈ [9; 10; 11; 12; 13; 32; 160; 5760; 8192; 8193; 8194; 8195;
                    8196; 8197; 8198; 8199; 8200; 8201; 8202; 8232; 8233;
                    8239; 8287; 12288; 65279]%N).

(** [line.trim() === ''] *)
Definition trimsToEmpty (line : JsString) : bool := forallb isWhiteSpace line.

(** [str.split('\n').filter(line => line.trim() !== '')] *)
Definition splitLines (str : JsString) : list JsString :=
  filter (fun line => trimsToEmpty line = false) (splitNewline str).

(** Index clamping of [String.prototype.slice], on integral arguments. *)
Definition clampIndex (len i : Z) : Z :=
  if i <? 0 then Z.max (len + i) 0 else Z.min i len.

(** [str.slice(start, end)] *)
Definition sliceString (str : JsString) (start stop : Z) : JsString :=
  let len := Z.of_nat (length str) in
  let from := clampIndex len start in
  let to := clampIndex len stop in
  if to <=? from then []
  else take (Z.to_nat (to - from)) (drop (Z.to_nat from) str).

(** [testName.indexOf(pattern)]: position of the first occurrence, [None]
    for -1. *)
Fixpoint indexOf (pattern str : JsString) : option nat :=
  if bool_decide (pattern `prefix_of` str) then Some 0%nat
  else match str with
       | [] => None
       | _ :: rest => S <$> indexOf pattern rest
       end.

Definition separator : JsString := units " - ".

Definition stripSuitePrefix (testName : JsString) : JsString :=
  if bool_decide (testName = []) then []
  else match indexOf separator testName with
       | None => testName
       | Some separatorIndex => drop (separatorIndex + 3) testName
       end.

End Helpers.

(** * Properties *)

(** ** The flakiness predicate *)

Lemma orZero_default (n : option Z) : orZero n = default 0 n.
Proof.
  unfold orZero, truthyNumber. destruct n as [z|]; simpl; [|done].
  destruct (Z.eqb_spec z 0) as [->|]; done.
Qed.

Lemma isTestFlaky_true_iff (test : CtrfTest) :
  isTestFlaky test = true ↔
  flaky test = Some true
  ∨ ∃ r, retries test = Some r ∧ 0 < r ∧ status test = passed.
Proof.
  unfold isTestFlaky, truthyFlag, truthyNumber.
  rewrite orb_false_r, orb_true_iff, !andb_true_iff, bool_decide_eq_true.
  split.
  - intros [Hflag | [[Hnz Hpos] Hst]].
    + left. destruct (flaky test) as [[]|]; done.
    + right. destruct (retries test) as [r|]; [|done].
      exists r. split; [done|]. split; [lia | done].
  - intros [Hflag | (r & Hr & Hpos & Hst)].
    + left. by rewrite Hflag.
    + right. rewrite Hr. repeat split; [|lia|done].
      apply negb_true_iff. lia.
Qed.

(** C1. [isTestFlaky] holds exactly when the explicit flag is true, or the
    test was retried (retries > 0) and its final status is 'passed'.  A passed
    test with retries = 2 and no flag is flaky; a failed test with positive
    retries and no true flag is not. *)
Theorem C1_isTestFlaky_spec :
  (∀ test : CtrfTest,
     isTestFlaky test = true ↔
     flaky test = Some true
     ∨ ∃ r, retries test = Some r ∧ 0 < r ∧ status test = passed)
  ∧ (∀ n d, isTestFlaky (mkTest n passed d (Some 2) None) = true)
  ∧ (∀ n d r fl, 0 < r → fl ≠ Some true →
       isTestFlaky (mkTest n failed d (Some r) fl) = false).
Proof.
  split; [exact isTestFlaky_true_iff|]. split.
  - intros n d. reflexivity.
  - intros n d r fl Hr Hfl. apply not_true_is_false.
    rewrite isTestFlaky_true_iff. simpl.
    intros [Hflag | (r' & _ & _ & Hst)]; [done | discriminate].
Qed.

Lemma C1_isTestFlaky_witness :
  isTestFlaky (mkTest "login" passed 120 (Some 2) None) = true
  ∧ isTestFlaky (mkTest "login" failed 120 (Some 3) None) = false.
Proof.
  destruct C1_isTestFlaky_spec as (Hiff & _ & Hfailed). split.
  - apply Hiff. right. exists 2. simpl. repeat split; lia.
  - apply Hfailed; [lia | discriminate].
Defined.

(** ** The aggregator, one name at a time *)

Section PerName.
Implicit Types (m : gmap string AggregatedTestMetrics) (n : string).
Implicit Types (ts : list CtrfTest) (entry : option AggregatedTestMetrics).

Lemma tallyTest_lookup m test n :
  tallyTest m test !! n = tallyView n (m !! n) test.
Proof.
  unfold tallyTest, tallyView.
  destruct (decide (name test = n)) as [<-|Hne].
  - case_bool_decide as Hsome.
    + destruct Hsome as [x Hx]. rewrite Hx. simpl.
      by rewrite lookup_insert_eq.
    + assert (m !! name test = None) as Hnone.
      { destruct (m !! name test) eqn:E; [|done]. destruct Hsome; eauto. }
      rewrite lookup_insert_eq, Hnone. simpl.
      by rewrite lookup_insert_eq.
  - case_bool_decide as Hsome.
    + destruct (m !! name test); [by rewrite lookup_insert_ne | done].
    + rewrite lookup_insert_eq. by rewrite !lookup_insert_ne.
Qed.

Lemma foldl_tallyTest_lookup ts m n :
  foldl tallyTest m ts !! n = foldl (tallyView n) (m !! n) ts.
Proof.
  revert m. induction ts as [|test ts IH]; intros m; [done|].
  simpl. by rewrite IH, tallyTest_lookup.
Qed.

Lemma markAppearance_lookup m x n :
  markAppearance m x !! n =
  if decide (x = n) then bumpAppears <$> m !! n else m !! n.
Proof.
  unfold markAppearance. destruct (decide (x = n)) as [<-|Hne].
  - destruct (m !! x) eqn:E; simpl; [by rewrite lookup_insert_eq | done].
  - destruct (m !! x); [by rewrite lookup_insert_ne | done].
Qed.

Lemma foldl_markAppearance_lookup (names : list string) m n :
  NoDup names →
  foldl markAppearance m names !! n =
  if decide (n ∈ names) then bumpAppears <$> m !! n else m !! n.
Proof.
  intros Hnd. revert m.
  induction Hnd as [|x names Hx Hnd IH]; intros m; cbn [foldl].
  - destruct (decide (n ∈ [])) as [H|]; [by apply not_elem_of_nil in H | done].
  - rewrite IH, markAppearance_lookup.
    destruct (decide (x = n)) as [->|Hne].
    + rewrite (decide_False (P := n ∈ names)) by done.
      rewrite decide_True; [done | left].
    + destruct (decide (n ∈ names)) as [Hin|Hnin].
      * rewrite decide_True; [done | by right].
      * rewrite decide_False; [done|].
        intros [->|?]%elem_of_cons; done.
Qed.

Lemma setAdd_fold_NoDup ts (s : list string) :
  NoDup s → NoDup (foldl (fun s test => setAdd s (name test)) s ts).
Proof.
  revert s. induction ts as [|test ts IH]; intros s Hs; [done|].
  simpl. apply IH. unfold setAdd. case_bool_decide; [done|].
  apply NoDup_app. split; [done|]. split.
  - intros y Hy ->%list_elem_of_singleton. done.
  - apply NoDup_singleton.
Qed.

Lemma setAdd_fold_elem ts (s : list string) x :
  x ∈ foldl (fun s test => setAdd s (name test)) s ts ↔
  x ∈ s ∨ x ∈ map name ts.
Proof.
  revert s. induction ts as [|test ts IH]; intros s; simpl.
  - split; [by left | intros [?|H]; [done | by apply not_elem_of_nil in H]].
  - rewrite IH. unfold setAdd. rewrite elem_of_cons.
    case_bool_decide as Hin.
    + split; [tauto|]. intros [?|[->|?]]; tauto.
    + rewrite elem_of_app, list_elem_of_singleton. tauto.
Qed.

Lemma testsInThisReport_NoDup ts : NoDup (testsInThisReport ts).
Proof. apply setAdd_fold_NoDup, NoDup_nil_2. Qed.

Lemma testsInThisReport_elem ts x :
  x ∈ testsInThisReport ts ↔ x ∈ map name ts.
Proof.
  unfold testsInThisReport. rewrite setAdd_fold_elem.
  split; [intros [H|?]; [by apply not_elem_of_nil in H | done] | by right].
Qed.

Lemma tallyView_absent ts n entry :
  n ∉ map name ts → foldl (tallyView n) entry ts = entry.
Proof.
  revert entry. induction ts as [|test ts IH]; intros entry Hn; [done|].
  simpl in *. apply not_elem_of_cons in Hn as [Hne Hn].
  rewrite IH by done. unfold tallyView. by rewrite decide_False.
Qed.

Lemma tallyView_present ts n entry :
  n ∈ map name ts → is_Some (foldl (tallyView n) entry ts).
Proof.
  assert (∀ ts entry, is_Some entry → is_Some (foldl (tallyView n) entry ts))
    as Hkeep.
  { clear. intros ts. induction ts as [|test ts IH]; intros entry He; [done|].
    simpl. apply IH. unfold tallyView. case_decide; [eauto | done]. }
  revert entry. induction ts as [|test ts IH]; intros entry Hn; simpl in *.
  - by apply not_elem_of_nil in Hn.
  - apply elem_of_cons in Hn as [->|Hn]; [|by apply IH].
    apply Hkeep. unfold tallyView. rewrite decide_True by done. eauto.
Qed.

(** Effect of one valid report on the entry of [n]. *)
Lemma foldReport_lookup m report n :
  validateReportForInsights report = true →
  foldReport m report !! n =
  if decide (n ∈ map name (reportTests report))
  then bumpAppears <$> foldl (tallyView n) (m !! n) (reportTests report)
  else m !! n.
Proof.
  intros Hvalid. unfold foldReport. rewrite Hvalid. simpl.
  rewrite foldl_markAppearance_lookup by apply testsInThisReport_NoDup.
  rewrite foldl_tallyTest_lookup.
  destruct (decide (n ∈ map name (reportTests report))) as [Hin|Hnin].
  - rewrite decide_True; [done | by apply testsInThisReport_elem].
  - rewrite decide_False by (by rewrite testsInThisReport_elem).
    by apply tallyView_absent.
Qed.

Lemma foldReport_invalid m report :
  validateReportForInsights report = false → foldReport m report = m.
Proof. intros H. unfold foldReport. by rewrite H. Qed.

End PerName.

(** ** Counters written by the inner loop *)

Lemma recordTest_totalResults test metrics :
  totalResults (recordTest test metrics) = totalResults metrics + 1.
Proof.
  unfold recordTest. destruct (status test), (isTestFlaky test); reflexivity.
Qed.

Lemma recordTest_totalAttempts test metrics :
  totalAttempts (recordTest test metrics) =
  totalAttempts metrics + (1 + default 0 (retries test)).
Proof.
  unfold recordTest. rewrite !orZero_default.
  destruct (status test), (isTestFlaky test); reflexivity.
Qed.

Lemma recordTest_totalResultsDuration test metrics :
  totalResultsDuration (recordTest test metrics) =
  totalResultsDuration metrics + duration test.
Proof.
  unfold recordTest. rewrite (orZero_default (Some _)).
  destruct (status test), (isTestFlaky test); reflexivity.
Qed.

Lemma recordTest_totalResultsFlaky test metrics :
  totalResultsFlaky (recordTest test metrics) =
  totalResultsFlaky metrics + (if isTestFlaky test then 1 else 0).
Proof.
  unfold recordTest.
  destruct (status test), (isTestFlaky test); simpl; lia.
Qed.

Lemma recordTest_appearsInRuns test metrics :
  appearsInRuns (recordTest test metrics) = appearsInRuns metrics.
Proof. reflexivity. Qed.

Section AdditiveCounter.
Variable F : AggregatedTestMetrics -> Z.
Variable f : CtrfTest -> Z.
Hypothesis F_recordTest :
  ∀ test metrics, F (recordTest test metrics) = F metrics + f test.

Lemma tallyView_counter ts n entry :
  F (default emptyMetrics (foldl (tallyView n) entry ts)) =
  F (default emptyMetrics entry) + sumFor f n ts.
Proof.
  revert entry. induction ts as [|test ts IH]; intros entry; simpl.
  - lia.
  - rewrite IH. unfold tallyView.
    destruct (decide (name test = n)); simpl; [|done].
    rewrite F_recordTest. lia.
Qed.
End AdditiveCounter.

Lemma tallyView_appearsInRuns ts n entry :
  appearsInRuns (default emptyMetrics (foldl (tallyView n) entry ts)) =
  appearsInRuns (default emptyMetrics entry).
Proof.
  rewrite (tallyView_counter appearsInRuns (fun _ => 0)).
  - induction ts as [|test ts IH]; simpl; [lia|].
    destruct (decide (name test = n)); simpl in *; lia.
  - intros. rewrite recordTest_appearsInRuns. lia.
Qed.

(** C6. Aggregating a valid report twice doubles totalResults, totalAttempts
    and the total duration of every name it contains, while appearsInRuns is
    1 after one copy and 2 after two, however often the name recurs inside
    the report (totalResults counts every occurrence). *)
Theorem C6_duplicate_report_doubles (R : CtrfReport) (n : string) :
  validateReportForInsights R = true →
  n ∈ map name (reportTests R) →
  ∃ once twice : AggregatedTestMetrics,
    aggregateTestMetricsAcrossReports [R] !! n = Some once
    ∧ aggregateTestMetricsAcrossReports [R; R] !! n = Some twice
    ∧ totalResults once = sumFor (fun _ => 1) n (reportTests R)
    ∧ totalResults twice = 2 * totalResults once
    ∧ totalAttempts twice = 2 * totalAttempts once
    ∧ totalResultsDuration twice = 2 * totalResultsDuration once
    ∧ appearsInRuns once = 1
    ∧ appearsInRuns twice = 2.
Proof.
  intros Hvalid Hin. unfold aggregateTestMetricsAcrossReports. cbn [foldl].
  pose proof (tallyView_present _ _ None Hin) as [x Hx].
  pose proof (tallyView_present _ _ (Some (bumpAppears x)) Hin) as [y Hy].
  exists (bumpAppears x), (bumpAppears y).
  assert (foldReport ∅ R !! n = Some (bumpAppears x)) as Hone.
  { rewrite foldReport_lookup, decide_True, lookup_empty, Hx by done. done. }
  assert (foldReport (foldReport ∅ R) R !! n = Some (bumpAppears y)) as Htwo.
  { rewrite foldReport_lookup, decide_True, Hone, Hy by done. done. }
  split; [done|]. split; [done|].
  pose proof (tallyView_counter _ _ recordTest_totalResults
                (reportTests R) n None) as R1.
  pose proof (tallyView_counter _ _ recordTest_totalResults
                (reportTests R) n (Some (bumpAppears x))) as R2.
  pose proof (tallyView_counter _ _ recordTest_totalAttempts
                (reportTests R) n None) as A1.
  pose proof (tallyView_counter _ _ recordTest_totalAttempts
                (reportTests R) n (Some (bumpAppears x))) as A2.
  pose proof (tallyView_counter _ _ recordTest_totalResultsDuration
                (reportTests R) n None) as D1.
  pose proof (tallyView_counter _ _ recordTest_totalResultsDuration
                (reportTests R) n (Some (bumpAppears x))) as D2.
  pose proof (tallyView_appearsInRuns (reportTests R) n None) as P1.
  pose proof (tallyView_appearsInRuns (reportTests R) n
                (Some (bumpAppears x))) as P2.
  rewrite Hx in R1, A1, D1, P1. rewrite Hy in R2, A2, D2, P2.
  simpl in *. repeat split; lia.
Qed.

Lemma C6_duplicate_report_witness :
  let R := mkReport (Some (mkResults (mkSummary 3 2 1 0 0 0 1000 5000)
             (TestsArray [mkTest "a" passed 100 (Some 1) None;
                          mkTest "b" failed 50 None None;
                          mkTest "a" passed 70 None None]) None)) None in
  ∃ once twice : AggregatedTestMetrics,
    aggregateTestMetricsAcrossReports [R] !! "a" = Some once
    ∧ aggregateTestMetricsAcrossReports [R; R] !! "a" = Some twice
    ∧ totalResults once = 2
    ∧ totalResults twice = 2 * totalResults once
    ∧ totalAttempts twice = 2 * totalAttempts once
    ∧ totalResultsDuration twice = 2 * totalResultsDuration once
    ∧ appearsInRuns once = 1
    ∧ appearsInRuns twice = 2.
Proof.
  intros R.
  destruct (C6_duplicate_report_doubles R "a") as (once & twice & H);
    [reflexivity | vm_compute; left | ].
  exists once, twice. exact H.
Defined.

(** C7. A report whose [results.tests] is missing or not an array leaves the
    map untouched, so aggregating a list gives the same map as aggregating
    the list without its malformed reports. *)
Theorem C7_malformed_reports_skipped :
  (∀ m report,
     (∀ res ts, results report = Some res → tests res ≠ TestsArray ts) →
     foldReport m report = m)
  ∧ (∀ reports,
       aggregateTestMetricsAcrossReports reports =
       aggregateTestMetricsAcrossReports
         (filter (fun report => validateReportForInsights report = true) reports)).
Proof.
  split.
  - intros m report Hbad. apply foldReport_invalid.
    unfold validateReportForInsights.
    destruct (results report) as [res|]; [|done].
    destruct (tests res) as [| |ts] eqn:E; [done..|].
    by destruct (Hbad res ts).
  - intros reports. unfold aggregateTestMetricsAcrossReports.
    generalize (∅ : gmap string AggregatedTestMetrics).
    induction reports as [|report reports IH]; intros m; [done|].
    rewrite filter_cons. cbn [foldl].
    destruct (decide (validateReportForInsights report = true)) as [Hv|Hv].
    + cbn [foldl]. apply IH.
    + rewrite foldReport_invalid by (by destruct (validateReportForInsights report)).
      apply IH.
Qed.

Lemma C7_malformed_reports_witness :
  let malformed := mkReport (Some (mkResults (mkSummary 0 0 0 0 0 0 0 0)
                     TestsNotArray None)) None in
  let valid := mkReport (Some (mkResults (mkSummary 1 1 0 0 0 0 1000 5000)
                 (TestsArray [mkTest "a" passed 100 None None]) None)) None in
  foldReport ∅ malformed = ∅
  ∧ aggregateTestMetricsAcrossReports [malformed; valid; mkReport None None]
    = aggregateTestMetricsAcrossReports [valid].
Proof.
  intros malformed valid. split.
  - apply (proj1 C7_malformed_reports_skipped).
    intros res ts [= <-]. discriminate.
  - exact (proj2 C7_malformed_reports_skipped
             [malformed; valid; mkReport None None]).
Defined.

(** ** Numbers: binary64 rounding *)

Lemma roundHalfEven_le (x : Q) (n : Z) : (x <= inject_Z n)%Q → roundHalfEven x <= n.
Proof.
  intros Hx. unfold roundHalfEven.
  pose proof (Qfloor_le x) as Hf.
  assert (Qfloor x <= n) as Hfn.
  { rewrite <- (Qfloor_Z n). by apply Qfloor_resp_le. }
  destruct (Z.eq_dec (Qfloor x) n) as [Heq|Hne].
  - assert (x - inject_Z (Qfloor x) < 1 # 2)%Q as Hlt by (rewrite Heq in *; lra).
    rewrite (proj1 (Qlt_alt _ _) Hlt). lia.
  - destruct (x - inject_Z (Qfloor x) ?= 1 # 2)%Q; [destruct (Z.even _)| |]; lia.
Qed.

Lemma roundHalfEven_ge (x : Q) (n : Z) : (inject_Z n <= x)%Q → n <= roundHalfEven x.
Proof.
  intros Hx. unfold roundHalfEven.
  assert (n <= Qfloor x) as Hfn.
  { rewrite <- (Qfloor_Z n). by apply Qfloor_resp_le. }
  destruct (x - inject_Z (Qfloor x) ?= 1 # 2)%Q; [destruct (Z.even _)| |]; lia.
Qed.

Lemma pow2_pos (z : Z) : (0 < 2 ^ z)%Q.
Proof. by apply Qpower_0_lt. Qed.

Lemma pow2_inject (z : Z) : 0 <= z → (2 ^ z == inject_Z (2 ^ z))%Q.
Proof. intros Hz. by rewrite Zpower_Qpower. Qed.

Lemma pow2_split (a b : Z) : (2 ^ (a - b) == 2 ^ a / 2 ^ b)%Q.
Proof. by rewrite Qpower_minus. Qed.

Lemma binaryExponent_le (q : Q) : (0 < q)%Q → (2 ^ binaryExponent q <= q)%Q.
Proof.
  intros Hq. unfold binaryExponent.
  destruct (Qle_bool _ q) eqn:Htest; [by apply Qle_bool_iff|].
  destruct q as [n d]. cbn [Qnum Qden].
  assert (0 < n) as Hn by (unfold Qlt in Hq; simpl in Hq; lia).
  pose proof (Z.log2_spec n Hn) as [Hn1 _].
  pose proof (Z.log2_spec (Z.pos d) ltac:(lia)) as [_ Hd2].
  pose proof (Z.log2_nonneg n) as Hln.
  pose proof (Z.log2_nonneg (Z.pos d)) as Hld.
  replace (Z.log2 n - Z.log2 (Z.pos d) - 1) with (Z.log2 n - Z.succ (Z.log2 (Z.pos d))) by lia.
  rewrite pow2_split, !pow2_inject by lia.
  set (a := 2 ^ Z.log2 n) in *. set (b := 2 ^ Z.succ (Z.log2 (Z.pos d))) in *.
  assert (0 < a) as Ha by (apply Z.pow_pos_nonneg; lia).
  apply Qle_shift_div_r; [change 0%Q with (inject_Z 0); rewrite <- Zlt_Qlt; lia|].
  unfold Qle, Qmult, inject_Z. simpl. nia.
Qed.

Lemma roundSignificand_nonneg (q : Q) : (0 < q)%Q → (0 <= roundSignificand q)%Q.
Proof.
  intros Hq. unfold roundSignificand.
  pose proof (pow2_pos (binaryExponent q - 52)) as Hu.
  apply Qmult_le_0_compat; [|lra].
  change 0%Q with (inject_Z 0). rewrite <- Zle_Qle. apply roundHalfEven_ge.
  apply Qle_shift_div_l; [done|]. change (inject_Z 0) with 0%Q. lra.
Qed.

Lemma ulp_below (e : Z) :
  e <= 52 → (2 ^ (e - 52) * inject_Z (2 ^ (52 - e)) == 1)%Q.
Proof.
  intros He. rewrite <- pow2_inject by lia. rewrite <- Qpower_plus by done.
  by replace (e - 52 + (52 - e)) with 0 by lia.
Qed.

Lemma exponent_small (q : Q) (h : Z) :
  (0 < q)%Q → (q <= inject_Z h)%Q → h <= 2 ^ 52 → binaryExponent q <= 52.
Proof.
  intros Hq Hqh Hh. pose proof (binaryExponent_le q Hq) as He.
  apply (Qpower_le_compat_l_inv 2); [|done].
  rewrite (pow2_inject 52) by lia. rewrite Zle_Qle in Hh. lra.
Qed.

Lemma roundSignificand_upper (q : Q) (h : Z) :
  (0 < q)%Q → (q <= inject_Z h)%Q → h <= 2 ^ 52 →
  (roundSignificand q <= inject_Z h)%Q.
Proof.
  intros Hq Hqh Hh. pose proof (exponent_small q h Hq Hqh Hh) as He.
  unfold roundSignificand.
  pose proof (pow2_pos (binaryExponent q - 52)) as Hu.
  pose proof (ulp_below _ He) as Hk.
  set (u := (2 ^ (binaryExponent q - 52))%Q) in *.
  set (P := 2 ^ (52 - binaryExponent q)) in *.
  assert (roundHalfEven (q / u) <= h * P) as Hm.
  { apply roundHalfEven_le. apply Qle_shift_div_r; [done|].
    rewrite inject_Z_mult, <- Qmult_assoc, (Qmult_comm (inject_Z P)), Hk. lra. }
  rewrite Zle_Qle, inject_Z_mult in Hm.
  apply (Qmult_le_compat_r _ _ u) in Hm; [|lra].
  rewrite <- Qmult_assoc, (Qmult_comm (inject_Z P)), Hk in Hm. lra.
Qed.

Lemma roundSignificand_lower (q : Q) (h : Z) :
  (inject_Z h <= q)%Q → 0 < h <= 2 ^ 52 →
  (inject_Z h <= roundSignificand q)%Q.
Proof.
  intros Hqh Hh.
  assert (0 < q)%Q as Hq.
  { assert (inject_Z 0 < inject_Z h)%Q by (rewrite <- Zlt_Qlt; lia).
    change (inject_Z 0) with 0%Q in *. lra. }
  pose proof (binaryExponent_le q Hq) as He.
  unfold roundSignificand.
  pose proof (pow2_pos (binaryExponent q - 52)) as Hu.
  destruct (Z.le_gt_cases (binaryExponent q) 52) as [Hle|Hgt].
  - pose proof (ulp_below _ Hle) as Hk.
    set (u := (2 ^ (binaryExponent q - 52))%Q) in *.
    set (P := 2 ^ (52 - binaryExponent q)) in *.
    assert (h * P <= roundHalfEven (q / u)) as Hm.
    { apply roundHalfEven_ge. apply Qle_shift_div_l; [done|].
      rewrite inject_Z_mult, <- Qmult_assoc, (Qmult_comm (inject_Z P)), Hk. lra. }
    rewrite Zle_Qle, inject_Z_mult in Hm.
    apply (Qmult_le_compat_r _ _ u) in Hm; [|lra].
    rewrite <- Qmult_assoc, (Qmult_comm (inject_Z P)), Hk in Hm. lra.
  - assert (2 ^ binaryExponent q == inject_Z (2 ^ 52) * 2 ^ (binaryExponent q - 52))%Q
      as Hsplit.
    { rewrite <- (pow2_inject 52) by lia. rewrite <- Qpower_plus by done.
      by replace (52 + (binaryExponent q - 52)) with (binaryExponent q) by lia. }
    assert (1 <= 2 ^ (binaryExponent q - 52))%Q as Hone
      by (apply Qpower_1_le; [done|lia]).
    set (u := (2 ^ (binaryExponent q - 52))%Q) in *.
    assert (2 ^ 52 <= roundHalfEven (q / u)) as Hm.
    { apply roundHalfEven_ge. apply Qle_shift_div_l; [done|]. lra. }
    rewrite Zle_Qle in Hm. apply (Qmult_le_compat_r _ _ u) in Hm; [|lra].
    destruct Hh as [_ Hh]. rewrite Zle_Qle in Hh.
    assert (0 <= inject_Z (2 ^ 52))%Q by (change 0%Q with (inject_Z 0); by rewrite <- Zle_Qle).
    assert (0 <= inject_Z (2 ^ 52) * (u - 1))%Q
      by (apply Qmult_le_0_compat; lra).
    lra.
Qed.

Lemma roundToDouble_comp (x y : Q) : (x == y)%Q → roundToDouble x = roundToDouble y.
Proof. intros Hxy. unfold roundToDouble. by rewrite (Qred_complete _ _ Hxy). Qed.

Lemma Qnum_sign (r : Q) :
  match Qnum r with
  | 0 => (r == 0)%Q
  | Z.pos _ => (0 < r)%Q
  | Z.neg _ => (r < 0)%Q
  end.
Proof. destruct r as [[|p|p] d]; unfold Qeq, Qlt; simpl; lia. Qed.

Lemma roundToDouble_nonneg (q : Q) : (0 <= q)%Q → (0 <= roundToDouble q)%Q.
Proof.
  intros Hq. unfold roundToDouble. pose proof (Qnum_sign (Qred q)) as Hs.
  rewrite <- (Qred_correct q) in Hq.
  destruct (Qnum (Qred q)); [lra| |lra]. by apply roundSignificand_nonneg.
Qed.

Lemma roundToDouble_upper (q : Q) (h : Z) :
  (q <= inject_Z h)%Q → 0 <= h <= 2 ^ 52 → (roundToDouble q <= inject_Z h)%Q.
Proof.
  intros Hq Hh. unfold roundToDouble. pose proof (Qnum_sign (Qred q)) as Hs.
  rewrite <- (Qred_correct q) in Hq.
  assert (0 <= inject_Z h)%Q as H0
    by (change 0%Q with (inject_Z 0); rewrite <- Zle_Qle; lia).
  destruct (Qnum (Qred q)); [done| |].
  - apply roundSignificand_upper; [done|done|lia].
  - assert (0 <= roundSignificand (- Qred q))%Q
      by (apply roundSignificand_nonneg; lra).
    lra.
Qed.

Lemma roundToDouble_lower (q : Q) (h : Z) :
  (inject_Z h <= q)%Q → 0 <= h <= 2 ^ 52 → (inject_Z h <= roundToDouble q)%Q.
Proof.
  intros Hq Hh. destruct (Z.eq_dec h 0) as [->|Hne].
  { apply roundToDouble_nonneg. by change 0%Q with (inject_Z 0). }
  unfold roundToDouble. pose proof (Qnum_sign (Qred q)) as Hs.
  rewrite <- (Qred_correct q) in Hq.
  assert (0 < inject_Z h)%Q as H0
    by (change 0%Q with (inject_Z 0); rewrite <- Zlt_Qlt; lia).
  destruct (Qnum (Qred q)); [lra| |lra].
  apply roundSignificand_lower; [done|lia].
Qed.

(** Integers of at most 53 bits are binary64 values. *)
Lemma roundToDouble_inject_Z (n : Z) :
  0 <= n <= 2 ^ 52 → (roundToDouble (inject_Z n) == inject_Z n)%Q.
Proof.
  intros Hn. apply Qle_antisym.
  - apply roundToDouble_upper; [lra|done].
  - apply roundToDouble_lower; [lra|done].
Qed.

Lemma binaryExponent_lt (q : Q) : (0 < q)%Q → (q < 2 ^ (binaryExponent q + 1))%Q.
Proof.
  intros Hq. unfold binaryExponent.
  destruct (Qle_bool _ q) eqn:Htest.
  - destruct q as [n d]. cbn [Qnum Qden].
    assert (0 < n) as Hn by (unfold Qlt in Hq; simpl in Hq; lia).
    pose proof (Z.log2_spec n Hn) as [_ Hn2].
    pose proof (Z.log2_spec (Z.pos d) ltac:(lia)) as [Hd1 _].
    pose proof (Z.log2_nonneg n) as Hln.
    pose proof (Z.log2_nonneg (Z.pos d)) as Hld.
    replace (Z.log2 n - Z.log2 (Z.pos d) + 1)
      with (Z.succ (Z.log2 n) - Z.log2 (Z.pos d)) by lia.
    rewrite pow2_split, !pow2_inject by lia.
    set (a := 2 ^ Z.succ (Z.log2 n)) in *. set (b := 2 ^ Z.log2 (Z.pos d)) in *.
    assert (0 < b) as Hb by (apply Z.pow_pos_nonneg; lia).
    apply Qlt_shift_div_l; [change 0%Q with (inject_Z 0); rewrite <- Zlt_Qlt; lia|].
    unfold Qlt, Qmult, inject_Z. simpl. nia.
  - replace (Z.log2 (Qnum q) - Z.log2 (Z.pos (Qden q)) - 1 + 1)
      with (Z.log2 (Qnum q) - Z.log2 (Z.pos (Qden q))) by lia.
    apply Qnot_le_lt. intros Hle. apply Qle_bool_iff in Hle. congruence.
Qed.

Lemma roundHalfEven_nearest (x : Q) :
  (inject_Z (roundHalfEven x) - (1 # 2) <= x
   ∧ x <= inject_Z (roundHalfEven x) + (1 # 2))%Q.
Proof.
  unfold roundHalfEven.
  pose proof (Qfloor_le x) as Hlo. pose proof (Qlt_floor x) as Hhi.
  rewrite inject_Z_plus in Hhi. change (inject_Z 1) with 1%Q in Hhi.
  destruct (Qcompare_spec (x - inject_Z (Qfloor x)) (1 # 2)) as [He|Hl|Hg].
  - destruct (Z.even (Qfloor x));
      rewrite ?inject_Z_plus; change (inject_Z 1) with 1%Q; split; lra.
  - split; lra.
  - rewrite inject_Z_plus. change (inject_Z 1) with 1%Q. split; lra.
Qed.

(** The rounded value is within half a unit in the last place. *)
Lemma roundSignificand_nearest (q : Q) :
  let ulp := (2 ^ (binaryExponent q - 52))%Q in
  (roundSignificand q - ulp * (1 # 2) <= q
   ∧ q <= roundSignificand q + ulp * (1 # 2))%Q.
Proof.
  intros ulp. unfold roundSignificand. fold ulp.
  pose proof (pow2_pos (binaryExponent q - 52)) as Hu. fold ulp in Hu.
  destruct (roundHalfEven_nearest (q / ulp)) as [Hlo Hhi].
  assert (q == q / ulp * ulp)%Q as Hq by (field; lra).
  set (m := inject_Z (roundHalfEven (q / ulp))) in *.
  set (x := (q / ulp)%Q) in *.
  split; rewrite Hq; nra.
Qed.

(** The quotient and the product are the doubles the code computes: 0.1 is
    the binary64 value next to 1/10, and on a two-decimal tie [toFixed2]
    follows the double, which lies below the exact value in these cases. *)
Example roundToDouble_one_tenth :
  (roundToDouble (1 # 10) == 3602879701896397 # 36028797018963968)%Q.
Proof. vm_compute. reflexivity. Qed.

Example ties_follow_the_double :
  toFixed2 (jsTimes100 (jsDivide 23 160)) = Finite (1437 # 100)
  ∧ toFixed2 (jsDivide 8003 40) = Finite (20007 # 100)
  ∧ toFixed2 (jsDivide 1 8) = Finite (13 # 100).
Proof. vm_compute. repeat split. Qed.

(** ** Numbers: rounding and finiteness *)

Section Rounding.
Local Open Scope Q_scope.

Lemma roundHalfAway_bounds (x : Q) :
  inject_Z (roundHalfAway x) - (1 # 2) <= x
  /\ x <= inject_Z (roundHalfAway x) + (1 # 2).
Proof.
  unfold roundHalfAway. destruct (Qle_bool 0 x).
  - pose proof (Qfloor_le (x + (1 # 2))) as Hlo.
    pose proof (Qlt_floor (x + (1 # 2))) as Hhi.
    rewrite inject_Z_plus in Hhi. change (inject_Z 1) with 1 in Hhi.
    split; lra.
  - pose proof (Qfloor_le (- x + (1 # 2))) as Hlo.
    pose proof (Qlt_floor (- x + (1 # 2))) as Hhi.
    rewrite inject_Z_plus in Hhi. change (inject_Z 1) with 1 in Hhi.
    rewrite inject_Z_opp. split; lra.
Qed.

Lemma hundredths (n : Z) : n # 100 == inject_Z n * (1 # 100).
Proof. unfold Qeq, inject_Z, Qmult. simpl. lia. Qed.

End Rounding.

Lemma rate_isFinite (a b : Z) :
  b ≠ 0 → isFinite (toFixed2 (jsTimes100 (jsDivide a b))) = true.
Proof.
  intros Hb. unfold jsDivide. by destruct (Z.eqb_spec b 0).
Qed.

Lemma average_isFinite (a b : Z) :
  b ≠ 0 → isFinite (toFixed2 (jsDivide a b)) = true.
Proof.
  intros Hb. unfold jsDivide. by destruct (Z.eqb_spec b 0).
Qed.

(** Without its guard a deriver would produce NaN on 0/0. *)
Lemma unguarded_zero_division :
  toFixed2 (jsTimes100 (jsDivide 0 0)) = NaN ∧ toFixed2 (jsDivide 5 0) = PosInfinity.
Proof. split; reflexivity. Qed.

Local Ltac guarded_finite :=
  match goal with
  | |- context [if ?d =? 0 then _ else _] =>
      destruct (Z.eqb_spec d 0);
      [reflexivity | first [by apply rate_isFinite | by apply average_isFinite]]
  end.

Lemma run_derivers_isFinite (rm : AggregatedRunMetrics) :
  isFinite (calculateFlakyRateFromMetrics rm) = true
  ∧ isFinite (calculateFailRateFromMetrics rm) = true
  ∧ isFinite (calculateSkippedRateFromMetrics rm) = true
  ∧ isFinite (calculateAverageTestDurationFromMetrics rm) = true
  ∧ isFinite (calculateAverageRunDurationFromMetrics rm) = true.
Proof.
  unfold calculateFlakyRateFromMetrics, calculateFailRateFromMetrics,
    calculateSkippedRateFromMetrics, calculateAverageTestDurationFromMetrics,
    calculateAverageRunDurationFromMetrics.
  repeat split; guarded_finite.
Qed.

Lemma map_derivers_isFinite (metricsMap : gmap string AggregatedTestMetrics) :
  isFinite (CtrfInsights.calculateFlakyRateFromMetrics metricsMap) = true
  ∧ isFinite (CtrfInsights.calculateFailRateFromMetrics metricsMap) = true
  ∧ isFinite (CtrfInsights.calculateSkippedRateFromMetrics metricsMap) = true
  ∧ isFinite (CtrfInsights.calculateAverageTestDurationFromMetrics metricsMap) = true.
Proof.
  unfold CtrfInsights.calculateFlakyRateFromMetrics,
    CtrfInsights.calculateFailRateFromMetrics,
    CtrfInsights.calculateSkippedRateFromMetrics,
    CtrfInsights.calculateAverageTestDurationFromMetrics.
  cbv zeta. repeat split; guarded_finite.
Qed.

(** The sums taken inside the derivers of src/ctrf/insights.ts are the
    counters of the consolidated bundle, so the four shared derivers of the
    two engines agree. *)
Lemma consolidate_sums (metricsMap : gmap string AggregatedTestMetrics) :
  totalAttempts (consolidateTestMetricsToRunMetrics metricsMap)
  = CtrfInsights.sumOver totalAttempts metricsMap
  ∧ totalResults (consolidateTestMetricsToRunMetrics metricsMap)
    = CtrfInsights.sumOver totalResults metricsMap
  ∧ totalResultsFailed (consolidateTestMetricsToRunMetrics metricsMap)
    = CtrfInsights.sumOver totalResultsFailed metricsMap
  ∧ totalResultsSkipped (consolidateTestMetricsToRunMetrics metricsMap)
    = CtrfInsights.sumOver totalResultsSkipped metricsMap
  ∧ totalResultsFlaky (consolidateTestMetricsToRunMetrics metricsMap)
    = CtrfInsights.sumOver totalResultsFlaky metricsMap
  ∧ totalResultsDuration (consolidateTestMetricsToRunMetrics metricsMap)
    = CtrfInsights.sumOver totalResultsDuration metricsMap.
Proof.
  unfold consolidateTestMetricsToRunMetrics, CtrfInsights.sumOver.
  cbv zeta. rewrite !map_fold_foldr. simpl.
  induction (map_to_list metricsMap) as [|[key metrics] entries IH]; [done|].
  simpl. destruct IH as (-> & -> & -> & -> & -> & ->). repeat split; lia.
Qed.

Lemma engines_agree (metricsMap : gmap string AggregatedTestMetrics) :
  let rm := consolidateTestMetricsToRunMetrics metricsMap in
  CtrfInsights.calculateFlakyRateFromMetrics metricsMap
  = calculateFlakyRateFromMetrics rm
  ∧ CtrfInsights.calculateFailRateFromMetrics metricsMap
    = calculateFailRateFromMetrics rm
  ∧ CtrfInsights.calculateSkippedRateFromMetrics metricsMap
    = calculateSkippedRateFromMetrics rm
  ∧ CtrfInsights.calculateAverageTestDurationFromMetrics metricsMap
    = calculateAverageTestDurationFromMetrics rm.
Proof.
  intros rm. destruct (consolidate_sums metricsMap) as (Ha & Hr & Hf & Hs & Hk & Hd).
  unfold CtrfInsights.calculateFlakyRateFromMetrics,
    CtrfInsights.calculateFailRateFromMetrics,
    CtrfInsights.calculateSkippedRateFromMetrics,
    CtrfInsights.calculateAverageTestDurationFromMetrics,
    calculateFlakyRateFromMetrics, calculateFailRateFromMetrics,
    calculateSkippedRateFromMetrics, calculateAverageTestDurationFromMetrics.
  cbv zeta. subst rm. rewrite Ha, Hr, Hf, Hs, Hk, Hd. done.
Qed.

(** A worked run over two reports: test "a" passes once (100 ms) and fails
    once after one retry (120 ms), test "b" fails once (50 ms). *)
Example two_report_scenario :
  let report ts := mkReport (Some (mkResults (mkSummary 0 0 0 0 0 0 1000 5000)
                     (TestsArray ts) None)) None in
  let report1 := report [mkTest "a" passed 100 None None;
                         mkTest "b" failed 50 None None] in
  let report2 := report [mkTest "a" failed 120 (Some 1) None] in
  let metricsMap := aggregateTestMetricsAcrossReports [report1; report2] in
  metricsMap !! "a"
  = Some (mkTestMetrics (mkRunMetrics 3 3 2 1 1 0 0 220 0) 2)
  ∧ calculateFailRateFromMetrics (consolidateTestMetricsToRunMetrics metricsMap)
    = Finite (6667 # 100).
Proof. vm_compute. split; reflexivity. Qed.

(** C2. Over any list of reports the run-level derivers never divide by
    zero: every result is a finite number, the flaky rate is 0 when the
    consolidated totalAttempts is 0, and the fail rate, skipped rate and
    average test duration are 0 when the consolidated totalResults is 0.
    Both engines (consolidated bundle, and sums taken inside the deriver). *)
Theorem C2_zero_denominator_yields_zero (reports : list CtrfReport) :
  let metricsMap := aggregateTestMetricsAcrossReports reports in
  let rm := consolidateTestMetricsToRunMetrics metricsMap in
  (totalAttempts rm = 0 → calculateFlakyRateFromMetrics rm = ofZ 0)
  ∧ (totalResults rm = 0 →
       calculateFailRateFromMetrics rm = ofZ 0
       ∧ calculateSkippedRateFromMetrics rm = ofZ 0
       ∧ calculateAverageTestDurationFromMetrics rm = ofZ 0)
  ∧ (CtrfInsights.sumOver totalAttempts metricsMap = 0 →
       CtrfInsights.calculateFlakyRateFromMetrics metricsMap = ofZ 0)
  ∧ (CtrfInsights.sumOver totalResults metricsMap = 0 →
       CtrfInsights.calculateFailRateFromMetrics metricsMap = ofZ 0
       ∧ CtrfInsights.calculateSkippedRateFromMetrics metricsMap = ofZ 0
       ∧ CtrfInsights.calculateAverageTestDurationFromMetrics metricsMap = ofZ 0)
  ∧ (isFinite (calculateFlakyRateFromMetrics rm) = true
     ∧ isFinite (calculateFailRateFromMetrics rm) = true
     ∧ isFinite (calculateSkippedRateFromMetrics rm) = true
     ∧ isFinite (calculateAverageTestDurationFromMetrics rm) = true
     ∧ isFinite (CtrfInsights.calculateFlakyRateFromMetrics metricsMap) = true
     ∧ isFinite (CtrfInsights.calculateFailRateFromMetrics metricsMap) = true
     ∧ isFinite (CtrfInsights.calculateSkippedRateFromMetrics metricsMap) = true
     ∧ isFinite (CtrfInsights.calculateAverageTestDurationFromMetrics metricsMap)
       = true).
Proof.
  intros metricsMap rm.
  split; [|split; [|split; [|split]]].
  - intros H. unfold calculateFlakyRateFromMetrics. by rewrite H.
  - intros H. unfold calculateFailRateFromMetrics, calculateSkippedRateFromMetrics,
      calculateAverageTestDurationFromMetrics. by rewrite H.
  - intros H. unfold CtrfInsights.calculateFlakyRateFromMetrics. cbv zeta.
    by rewrite H.
  - intros H. unfold CtrfInsights.calculateFailRateFromMetrics,
      CtrfInsights.calculateSkippedRateFromMetrics,
      CtrfInsights.calculateAverageTestDurationFromMetrics. cbv zeta.
    by rewrite H.
  - destruct (run_derivers_isFinite rm) as (? & ? & ? & ? & _).
    destruct (map_derivers_isFinite metricsMap) as (? & ? & ? & ?).
    done.
Qed.

Lemma C2_zero_denominator_witness :
  let emptyReport := mkReport (Some (mkResults (mkSummary 0 0 0 0 0 0 1000 2000)
                                (TestsArray []) None)) None in
  let rm := consolidateTestMetricsToRunMetrics
              (aggregateTestMetricsAcrossReports [emptyReport]) in
  totalAttempts rm = 0 ∧ totalResults rm = 0
  ∧ calculateFlakyRateFromMetrics rm = ofZ 0
  ∧ calculateFailRateFromMetrics rm = ofZ 0
  ∧ calculateSkippedRateFromMetrics rm = ofZ 0
  ∧ calculateAverageTestDurationFromMetrics rm = ofZ 0.
Proof.
  intros emptyReport rm.
  destruct (C2_zero_denominator_yields_zero [emptyReport])
    as (Hflaky & Hrest & _).
  split; [reflexivity|]. split; [reflexivity|].
  split; [apply Hflaky; reflexivity | apply Hrest; reflexivity].
Defined.

(** ** Baseline differ *)

Lemma diffMetric_fields (cur prev : InsightsMetric) :
  current (diffMetric cur prev) = current cur
  ∧ previous (diffMetric cur prev) = current prev
  ∧ change (diffMetric cur prev) = toFixed2 (jsMinus (current cur) (current prev)).
Proof. done. Qed.

(** Split a [Forall] over an explicit list of metric selectors. *)
Local Ltac each_metric :=
  repeat (apply Forall_cons_2); try apply Forall_nil_2.



(** C8 as stated fails: when the current report itself has no snapshot the
    differ returns undefined, so there is no snapshot whose fields could
    be 0. *)
Lemma C8_counterexample :
  let snapshot :=
    mkInsights (currentOnly (ofZ 4)) (currentOnly (ofZ 0)) (currentOnly (ofZ 0))
      (currentOnly (ofZ 0)) (currentOnly (ofZ 0)) 1 None in
  let currentReport := mkReport None None in
  let previousReport := mkReport None (Some snapshot) in
  ¬ ∃ returned : Insights,
      (calculateReportInsightsBaseline currentReport previousReport).1
      = Some returned.
Proof. intros snapshot currentReport previousReport [returned H]. discriminate. Qed.

(** C8 (amended). When either report lacks a snapshot the differ does not
    fail: it logs one diagnostic and returns the current report's insights
    field as it is, which is undefined when the current report has none.
    When that field holds a current-only snapshot (as composed by
    [calculateCurrentInsights]) the returned previous and change values are
    all 0. *)
Theorem C8_missing_snapshot_returns_current_field :
  (∀ currentReport previousReport,
     insights currentReport = None ∨ insights previousReport = None →
     calculateReportInsightsBaseline currentReport previousReport
     = (insights currentReport, [baselineDiagnostic]))
  ∧ (∀ report previousReports res previousReport,
       insights previousReport = None →
       let snapshot := calculateCurrentInsights report previousReports in
       calculateReportInsightsBaseline (mkReport res (Some snapshot)) previousReport
       = (Some snapshot, [baselineDiagnostic])
       ∧ Forall (fun metric : Insights -> InsightsMetric =>
            previous (metric snapshot) = ofZ 0 ∧ change (metric snapshot) = ofZ 0)
           [flakyRate; failRate; skippedRate; averageTestDuration;
            averageRunDuration]).
Proof.
  split.
  - intros currentReport previousReport H.
    unfold calculateReportInsightsBaseline.
    destruct (insights currentReport), (insights previousReport), H; done.
  - intros report previousReports res previousReport Hp snapshot. split.
    + unfold calculateReportInsightsBaseline. simpl. by rewrite Hp.
    + each_metric; done.
Qed.

Lemma C8_missing_snapshot_witness :
  let currentReport :=
    mkReport None (Some (mkInsights (currentOnly (ofZ 10)) (currentOnly (ofZ 0))
      (currentOnly (ofZ 0)) (currentOnly (ofZ 0)) (currentOnly (ofZ 0)) 1 None)) in
  calculateReportInsightsBaseline currentReport (mkReport None None)
  = (insights currentReport, [baselineDiagnostic]).
Proof.
  intros currentReport.
  apply (proj1 C8_missing_snapshot_returns_current_field). by right.
Defined.

(** ** Test-level derivers against the run-level ones *)

(** C4 as stated fails: a test that passed after one retry has 1 result, 2
    attempts and 1 flaky result; its test-level flaky rate is 100, while
    100 * totalResultsFlaky / totalAttempts (the run-level formula on the same
    counters) is 50. *)
Lemma C4_counterexample :
  let R := mkReport (Some (mkResults (mkSummary 1 1 0 0 0 0 1000 5000)
             (TestsArray [mkTest "t" passed 100 (Some 1) None]) None)) None in
  ∃ tm : AggregatedTestMetrics,
    aggregateTestMetricsAcrossReports [R] !! "t" = Some tm
    ∧ totalResults tm = 1 ∧ totalAttempts tm = 2 ∧ totalResultsFlaky tm = 1
    ∧ current (calculateTestFlakyRate "t" tm) = ofZ 100
    ∧ toFixed2 (jsTimes100 (jsDivide (totalResultsFlaky tm) (totalAttempts tm)))
      = ofZ 50
    ∧ calculateFlakyRateFromMetrics tm = ofZ 50
    ∧ current (calculateTestFlakyRate "t" tm) ≠ calculateFlakyRateFromMetrics tm.
Proof.
  intros R. eexists. split; [vm_compute; reflexivity|].
  repeat split; try (vm_compute; reflexivity). vm_compute. discriminate.
Qed.

(** C4 (amended). On one test's accumulated metrics the test-level fail rate,
    skipped rate and average duration are the run-level formulas applied to
    that test's counters.  The test-level flaky rate is
    100 * totalResultsFlaky / totalResults, computed as the code does (the
    double quotient, times 100, printed with two decimals) and 0 when
    totalResults is 0; it agrees with the run-level flaky formula when the
    test's totalAttempts equals its totalResults. *)
Theorem C4_test_level_rates (testName : string) (tm : AggregatedTestMetrics) :
  calculateTestFailRate testName tm = currentOnly (calculateFailRateFromMetrics tm)
  ∧ calculateTestSkippedRate testName tm
    = currentOnly (calculateSkippedRateFromMetrics tm)
  ∧ calculateTestAverageDuration testName tm
    = currentOnly (calculateAverageTestDurationFromMetrics tm)
  ∧ calculateTestFlakyRate testName tm
    = currentOnly
        (if totalResults tm =? 0 then ofZ 0
         else toFixed2 (jsTimes100
                (jsDivide (totalResultsFlaky tm) (totalResults tm))))
  ∧ (totalResults tm = 0 → current (calculateTestFlakyRate testName tm) = ofZ 0)
  ∧ (totalAttempts tm = totalResults tm →
       calculateTestFlakyRate testName tm
       = currentOnly (calculateFlakyRateFromMetrics tm)).
Proof.
  repeat split.
  - intros H. unfold calculateTestFlakyRate. simpl. by rewrite H.
  - intros H. unfold calculateTestFlakyRate, calculateFlakyRateFromMetrics.
    by rewrite H.
Qed.

Lemma C4_test_level_rates_witness :
  let noResults := mkTestMetrics zeroRunMetrics 0 in
  let noRetries := mkTestMetrics (mkRunMetrics 4 1 4 1 3 0 1 400 0) 4 in
  current (calculateTestFlakyRate "t" noResults) = ofZ 0
  ∧ calculateTestFlakyRate "t" noRetries
    = currentOnly (calculateFlakyRateFromMetrics noRetries).
Proof.
  intros noResults noRetries. split.
  - apply (C4_test_level_rates "t" noResults). reflexivity.
  - apply (C4_test_level_rates "t" noRetries). reflexivity.
Defined.

(** ** Average run duration *)

Lemma consolidate_reportsAnalyzed (metricsMap : gmap string AggregatedTestMetrics) :
  reportsAnalyzed (consolidateTestMetricsToRunMetrics metricsMap)
  = Z.of_nat (size metricsMap).
Proof. reflexivity. Qed.

(** C5. One report holding two distinct tests of 100 ms and 50 ms: one report
    is folded and the total duration is 150, yet the consolidated
    reportsAnalyzed is 2 (the number of distinct test names) and the average
    run duration comes out as 75 instead of 150.  The snapshot's own
    reportsAnalyzed field is 1. *)
Lemma C5_average_run_duration_divides_by_test_count :
  let R := mkReport (Some (mkResults (mkSummary 2 2 0 0 0 0 1000 5000)
             (TestsArray [mkTest "a" passed 100 None None;
                          mkTest "b" passed 50 None None]) None)) None in
  let rm := consolidateTestMetricsToRunMetrics
              (aggregateTestMetricsAcrossReports [R]) in
  length [R] = 1%nat
  ∧ totalResultsDuration rm = 150
  ∧ reportsAnalyzed rm = 2
  ∧ calculateAverageRunDurationFromMetrics rm = ofZ 75
  ∧ toFixed2 (jsDivide (totalResultsDuration rm) (Z.of_nat (length [R]))) = ofZ 150
  ∧ averageRunDuration (calculateCurrentInsights R []) = currentOnly (ofZ 75)
  ∧ i_reportsAnalyzed (calculateCurrentInsights R []) = 1
  ∧ CtrfInsights.calculateAverageRunDurationFromReports [R] = ofZ 4000.
Proof. intros R rm. vm_compute. repeat split. Qed.

(** ** Previous-runs extractor *)

Lemma previousRunOf_total report index :
  validateReportForInsights report = true →
  is_Some (previousRunOf report index).
Proof.
  unfold validateReportForInsights, previousRunOf.
  destruct (results report) as [res|]; [|done].
  destruct (tests res); [done..|eauto].
Qed.

Lemma previousRunOf_fields report index record :
  previousRunOf report index = Some record →
  ∃ res ts,
    results report = Some res ∧ tests res = TestsArray ts
    ∧ run_id record =
        (if truthyString (environment res ≫= buildNumber)
         then default "" (environment res ≫= buildNumber)
         else pretty (s_start (summary res)) +:+ "_" +:+ pretty index)
    ∧ run_date record = s_start (summary res)
    ∧ run_status record =
        (if 0 <? s_failed (summary res)
         then (if 0 <? s_passed (summary res) then runMixed else runFailed)
         else runPassed)
    ∧ run_flaky record = length (filter (fun test => flaky test = Some true) ts)
    ∧ run_duration record = s_stop (summary res) - s_start (summary res).
Proof.
  unfold previousRunOf. destruct (results report) as [res|]; [|done].
  destruct (tests res) as [| |ts] eqn:E; [done..|].
  intros [= <-]. exists res, ts. done.
Qed.

Lemma extractFrom_total reports k :
  Forall (fun report => validateReportForInsights report = true) reports →
  is_Some (extractFrom k reports).
Proof.
  intros Hall. revert k.
  induction Hall as [|report reports Hv Hall IH]; intros k; simpl; [eauto|].
  destruct (previousRunOf_total report k Hv) as [record ->].
  destruct (IH (S k)) as [records ->]. simpl. eauto.
Qed.

Lemma extractFrom_lookup reports k records :
  extractFrom k reports = Some records →
  length records = length reports
  ∧ ∀ i report, reports !! i = Some report →
      ∃ record, records !! i = Some record
        ∧ previousRunOf report (k + i) = Some record.
Proof.
  revert k records.
  induction reports as [|report reports IH]; intros k records; simpl.
  - intros [= <-]. split; [done|]. intros i report H. done.
  - destruct (previousRunOf report k) as [record|] eqn:Hrec; [|done]. simpl.
    destruct (extractFrom (S k) reports) as [rest|] eqn:Hrest; [|done]. simpl.
    intros [= <-]. destruct (IH _ _ Hrest) as [Hlen Hnth].
    split; [simpl; by rewrite Hlen|].
    intros [|i] r Hr; simpl in *.
    + injection Hr as <-. exists record. by rewrite Nat.add_0_r.
    + destruct (Hnth i r Hr) as (rec' & ? & ?). exists rec'.
      by rewrite Nat.add_succ_r.
Qed.

Lemma hasDeclaredType_validates report :
  hasDeclaredType report → validateReportForInsights report = true.
Proof.
  intros (sm & ts & env & Hres). unfold validateReportForInsights.
  by rewrite Hres.
Qed.

(** The test behind the id is [environment?.buildNumber || ...]: an empty
    build number falls back to the start_index form like an absent one. *)
Example empty_buildNumber_falls_back :
  ∃ record,
    extractPreviousRunsData
      [mkReport (Some (mkResults (mkSummary 5 5 0 0 0 0 1000 5000)
         (TestsArray []) (Some (mkEnvironment (Some "") None)))) None]
    = Some [record]
    ∧ run_buildNumber record = Some ""
    ∧ run_id record = "1000_0".
Proof. eexists. split; [vm_compute; reflexivity|]. by split. Qed.

(** C9. For every list of reports of the declared type, extraction returns
    one record per report in input order; the record at an index has
    id = environment.buildNumber when there is a build number (a non-empty
    string: the code tests it with [||]) and otherwise the start_index
    string, date = summary.start, duration = summary.stop - summary.start,
    and status 'passed' when summary.failed is 0, 'failed' when failed > 0
    and passed is 0, 'mixed' when both are positive. *)
Theorem C9_extract_previous_runs (reports : list CtrfReport) :
  Forall hasDeclaredType reports →
  ∃ records,
    extractPreviousRunsData reports = Some records
    ∧ length records = length reports
    ∧ ∀ index report, reports !! index = Some report →
        ∃ record res,
          records !! index = Some record
          ∧ results report = Some res
          ∧ (∀ b, environment res ≫= buildNumber = Some b → b ≠ "" →
               run_id record = b)
          ∧ (environment res ≫= buildNumber = None
             ∨ environment res ≫= buildNumber = Some "" →
               run_id record
               = pretty (s_start (summary res)) +:+ "_" +:+ pretty index)
          ∧ run_date record = s_start (summary res)
          ∧ run_duration record = s_stop (summary res) - s_start (summary res)
          ∧ (s_failed (summary res) = 0 → run_status record = runPassed)
          ∧ (0 < s_failed (summary res) → s_passed (summary res) = 0 →
               run_status record = runFailed)
          ∧ (0 < s_failed (summary res) → 0 < s_passed (summary res) →
               run_status record = runMixed).
Proof.
  intros Htyped. unfold extractPreviousRunsData.
  assert (Forall (fun report => validateReportForInsights report = true) reports)
    as Hall by (eapply Forall_impl; [done | apply hasDeclaredType_validates]).
  destruct (extractFrom_total reports 0 Hall) as [records Hrecords].
  destruct (extractFrom_lookup _ _ _ Hrecords) as [Hlen Hnth].
  exists records. split; [done|]. split; [done|].
  intros index report Hreport.
  destruct (Hnth index report Hreport) as (record & Hlook & Hrun).
  simpl in Hrun.
  destruct (previousRunOf_fields _ _ _ Hrun)
    as (res & ts & Hres & _ & Hid & Hdate & Hstatus & _ & Hdur).
  exists record, res. split; [done|]. split; [done|].
  split; [|split; [|split; [done|split; [done|]]]].
  - intros b Hb Hne. rewrite Hid, Hb. simpl.
    by rewrite bool_decide_eq_false_2.
  - intros [Hb|Hb]; rewrite Hid, Hb; reflexivity.
  - rewrite Hstatus. repeat split.
    + intros ->. reflexivity.
    + intros Hf ->. destruct (Z.ltb_spec 0 (s_failed (summary res))); [done|lia].
    + intros Hf Hp.
      destruct (Z.ltb_spec 0 (s_failed (summary res))); [|lia].
      destruct (Z.ltb_spec 0 (s_passed (summary res))); [done|lia].
Qed.

Lemma C9_extract_previous_runs_witness :
  let plain := mkReport (Some (mkResults (mkSummary 5 5 0 0 0 0 1000 5000)
                  (TestsArray []) None)) None in
  let built := mkReport (Some (mkResults (mkSummary 5 3 2 0 0 0 7 9)
                  (TestsArray []) (Some (mkEnvironment (Some "42") None)))) None in
  ∃ records record,
    extractPreviousRunsData [built; built; plain] = Some records
    ∧ length records = 3%nat
    ∧ records !! 2%nat = Some record
    ∧ run_id record = "1000_2"
    ∧ run_status record = runPassed
    ∧ run_duration record = 4000.
Proof.
  intros plain built.
  destruct (C9_extract_previous_runs [built; built; plain])
    as (records & Hrecords & Hlen & Hnth).
  { repeat (apply Forall_cons_2 || apply Forall_nil_2); by eexists _, _, _. }
  destruct (Hnth 2%nat plain eq_refl)
    as (record & res & Hlook & [= <-] & _ & Hid & _ & Hdur & Hpassed & _).
  exists records, record. split; [done|]. split; [done|]. split; [done|].
  split; [|split].
  - rewrite Hid; [reflexivity | by left].
  - by apply Hpassed.
  - by rewrite Hdur.
Defined.

(** C10. The flaky count of an extracted record is the number of tests of
    the report whose explicit flag is true.  A test without that flag leaves
    the count as it is, even when [isTestFlaky] infers it flaky (positive
    retries, final status 'passed'); a test with the flag adds one. *)
Theorem C10_historical_flaky_counts_explicit_flag :
  (∀ reports records index report record,
     extractPreviousRunsData reports = Some records →
     reports !! index = Some report →
     records !! index = Some record →
     run_flaky record =
     length (filter (fun test => flaky test = Some true) (reportTests report)))
  ∧ (∀ summary env ins ts test index,
       flaky test ≠ Some true →
       run_flaky <$> previousRunOf
         (mkReport (Some (mkResults summary (TestsArray (test :: ts)) env)) ins) index
       = run_flaky <$> previousRunOf
         (mkReport (Some (mkResults summary (TestsArray ts) env)) ins) index)
  ∧ (∀ summary env ins ts test index,
       flaky test = Some true →
       run_flaky <$> previousRunOf
         (mkReport (Some (mkResults summary (TestsArray (test :: ts)) env)) ins) index
       = S <$> (run_flaky <$> previousRunOf
         (mkReport (Some (mkResults summary (TestsArray ts) env)) ins) index))
  ∧ (∀ n d r, 0 < r →
       isTestFlaky (mkTest n passed d (Some r) None) = true
       ∧ flaky (mkTest n passed d (Some r) None) ≠ Some true).
Proof.
  split; [|split; [|split]].
  - intros reports records index report record Hex Hreport Hrecord.
    destruct (extractFrom_lookup _ _ _ Hex) as [_ Hnth].
    destruct (Hnth index report Hreport) as (record' & Hlook & Hrun).
    rewrite Hrecord in Hlook. injection Hlook as <-.
    destruct (previousRunOf_fields _ _ _ Hrun)
      as (res & ts & Hres & Hts & _ & _ & _ & Hflaky & _).
    unfold reportTests. by rewrite Hres, Hts.
  - intros summary env ins ts test index Hflag. simpl.
    by rewrite filter_cons_False.
  - intros summary env ins ts test index Hflag. simpl.
    by rewrite filter_cons_True.
  - intros n d r Hr. split; [|discriminate].
    apply isTestFlaky_true_iff. right. exists r. done.
Qed.

Lemma C10_historical_flaky_witness :
  let inferred := mkTest "retried" passed 80 (Some 2) None in
  let flagged := mkTest "flagged" failed 30 None (Some true) in
  let report := mkReport (Some (mkResults (mkSummary 2 1 1 0 0 0 1000 5000)
                  (TestsArray [inferred; flagged]) None)) None in
  isTestFlaky inferred = true
  ∧ ∃ record, extractPreviousRunsData [report] = Some [record]
      ∧ run_flaky record = 1%nat.
Proof.
  intros inferred flagged report.
  destruct C10_historical_flaky_counts_explicit_flag as (Hcount & _ & _ & Hinf).
  split; [apply (Hinf "retried" 80 2); lia|].
  eexists. split; [vm_compute; reflexivity|].
  match goal with
  | |- run_flaky ?record = _ =>
      apply (Hcount [report] [record] 0%nat report record); reflexivity
  end.
Defined.

(** ** Closed form of the aggregated entries *)

Lemma recordTest_totalAttemptsFailed test metrics :
  totalAttemptsFailed (recordTest test metrics) =
  totalAttemptsFailed metrics + attemptsFailedOf test.
Proof.
  unfold recordTest, attemptsFailedOf. rewrite !orZero_default.
  destruct (status test), (isTestFlaky test); simpl; lia.
Qed.

Lemma recordTest_totalResultsFailed test metrics :
  totalResultsFailed (recordTest test metrics) =
  totalResultsFailed metrics + failedOf test.
Proof.
  unfold recordTest, failedOf.
  destruct (status test), (isTestFlaky test); simpl; lia.
Qed.

Lemma recordTest_totalResultsPassed test metrics :
  totalResultsPassed (recordTest test metrics) =
  totalResultsPassed metrics + passedOf test.
Proof.
  unfold recordTest, passedOf.
  destruct (status test), (isTestFlaky test); simpl; lia.
Qed.

Lemma recordTest_totalResultsSkipped test metrics :
  totalResultsSkipped (recordTest test metrics) =
  totalResultsSkipped metrics + skippedOf test.
Proof.
  unfold recordTest, skippedOf.
  destruct (status test), (isTestFlaky test); simpl; lia.
Qed.

Lemma recordTest_reportsAnalyzed test metrics :
  reportsAnalyzed (recordTest test metrics) = reportsAnalyzed metrics + 0.
Proof.
  unfold recordTest.
  destruct (status test), (isTestFlaky test); simpl; lia.
Qed.

Lemma metrics_ext (a b : AggregatedTestMetrics) :
  totalAttempts a = totalAttempts b →
  totalAttemptsFailed a = totalAttemptsFailed b →
  totalResults a = totalResults b →
  totalResultsFailed a = totalResultsFailed b →
  totalResultsPassed a = totalResultsPassed b →
  totalResultsSkipped a = totalResultsSkipped b →
  totalResultsFlaky a = totalResultsFlaky b →
  totalResultsDuration a = totalResultsDuration b →
  reportsAnalyzed a = reportsAnalyzed b →
  appearsInRuns a = appearsInRuns b →
  a = b.
Proof.
  destruct a as [[] ?], b as [[] ?]. simpl. by intros -> -> -> -> -> -> -> -> -> ->.
Qed.

Lemma sumFor_app f n ts1 ts2 :
  sumFor f n (ts1 ++ ts2) = sumFor f n ts1 + sumFor f n ts2.
Proof.
  induction ts1 as [|test ts1 IH]; simpl; [lia|].
  destruct (decide (name test = n)); lia.
Qed.

Lemma sumFor_absent f n ts : n ∉ map name ts → sumFor f n ts = 0.
Proof.
  induction ts as [|test ts IH]; simpl; [done|].
  intros [Hne Hn]%not_elem_of_cons. rewrite decide_False by done. auto.
Qed.

Lemma sumFor_zero n ts : sumFor (fun _ => 0) n ts = 0.
Proof.
  induction ts as [|test ts IH]; simpl; [done|].
  destruct (decide (name test = n)); lia.
Qed.

(** The inner loop adds, to the entry it finds, the sums over the tests
    named [n]. *)
Lemma tallyView_closed n ts entry :
  n ∈ map name ts →
  foldl (tallyView n) entry ts
  = Some (addEntry (default emptyMetrics entry) (entryOf n ts 0)).
Proof.
  intros Hin. destruct (tallyView_present ts n entry Hin) as [x Hx].
  rewrite Hx. f_equal.
  pose proof (tallyView_counter _ _ recordTest_totalAttempts ts n entry) as H1.
  pose proof (tallyView_counter _ _ recordTest_totalAttemptsFailed ts n entry) as H2.
  pose proof (tallyView_counter _ _ recordTest_totalResults ts n entry) as H3.
  pose proof (tallyView_counter _ _ recordTest_totalResultsFailed ts n entry) as H4.
  pose proof (tallyView_counter _ _ recordTest_totalResultsPassed ts n entry) as H5.
  pose proof (tallyView_counter _ _ recordTest_totalResultsSkipped ts n entry) as H6.
  pose proof (tallyView_counter _ _ recordTest_totalResultsFlaky ts n entry) as H7.
  pose proof (tallyView_counter _ _ recordTest_totalResultsDuration ts n entry) as H8.
  pose proof (tallyView_counter _ _ recordTest_reportsAnalyzed ts n entry) as H9.
  pose proof (tallyView_appearsInRuns ts n entry) as H10.
  rewrite sumFor_zero in H9. rewrite Hx in *. simpl in *.
  apply metrics_ext; simpl; first [done | lia].
Qed.

Lemma testsOfValid_valid report :
  validateReportForInsights report = true → testsOfValid report = reportTests report.
Proof. intros H. unfold testsOfValid. by rewrite H. Qed.

Lemma testsOfValid_invalid report :
  validateReportForInsights report = false → testsOfValid report = [].
Proof. intros H. unfold testsOfValid. by rewrite H. Qed.

(** Effect of one report, valid or not, on the entry of [n]. *)
Lemma foldReport_closed m report n :
  foldReport m report !! n =
  if decide (n ∈ map name (testsOfValid report))
  then Some (addEntry (default emptyMetrics (m !! n))
               (entryOf n (testsOfValid report) 1))
  else m !! n.
Proof.
  destruct (validateReportForInsights report) eqn:Hv.
  - rewrite foldReport_lookup, testsOfValid_valid by done.
    destruct (decide (n ∈ map name (reportTests report))) as [Hin|]; [|done].
    rewrite tallyView_closed by done. simpl. f_equal.
    apply metrics_ext; simpl; lia.
  - rewrite foldReport_invalid, testsOfValid_invalid by done.
    destruct (decide (n ∈ map name [])) as [H|]; [|done].
    by apply not_elem_of_nil in H.
Qed.

Lemma testsSeen_cons report reports :
  testsSeen (report :: reports) = testsOfValid report ++ testsSeen reports.
Proof. reflexivity. Qed.

Lemma runsContaining_cons n report reports :
  runsContaining n (report :: reports) =
  if decide (n ∈ map name (testsOfValid report))
  then S (runsContaining n reports) else runsContaining n reports.
Proof.
  unfold runsContaining. rewrite filter_cons.
  by destruct (decide (n ∈ map name (testsOfValid report))).
Qed.

Lemma runsContaining_absent n reports :
  n ∉ map name (testsSeen reports) → runsContaining n reports = 0%nat.
Proof.
  induction reports as [|report reports IH]; [done|].
  rewrite testsSeen_cons, map_app, not_elem_of_app. intros [Hr Hrs].
  rewrite runsContaining_cons, decide_False by done. auto.
Qed.

Lemma aggregate_closed_from reports m n :
  foldl foldReport m reports !! n =
  if decide (n ∈ map name (testsSeen reports))
  then Some (addEntry (default emptyMetrics (m !! n)) (expectedEntry n reports))
  else m !! n.
Proof.
  revert m. induction reports as [|report reports IH]; intros m.
  - simpl. destruct (decide (n ∈ [])) as [H|]; [by apply not_elem_of_nil in H|done].
  - cbn [foldl]. rewrite IH, foldReport_closed. unfold expectedEntry.
    rewrite testsSeen_cons, runsContaining_cons, map_app.
    destruct (decide (n ∈ map name (testsOfValid report))) as [Hr|Hr];
      destruct (decide (n ∈ map name (testsSeen reports))) as [Hrs|Hrs].
    + rewrite decide_True by (apply elem_of_app; by left).
      simpl. f_equal. apply metrics_ext; simpl; rewrite ?sumFor_app; lia.
    + rewrite decide_True by (apply elem_of_app; by left).
      rewrite (runsContaining_absent _ _ Hrs).
      f_equal. apply metrics_ext; simpl;
        rewrite ?sumFor_app, ?(sumFor_absent _ _ _ Hrs); lia.
    + rewrite decide_True by (apply elem_of_app; by right).
      f_equal. apply metrics_ext; simpl;
        rewrite ?sumFor_app, ?(sumFor_absent _ _ _ Hr); lia.
    + rewrite decide_False; [done|]. by intros [?|?]%elem_of_app.
Qed.

Lemma aggregate_lookup_closed (reports : list CtrfReport) (n : string) :
  aggregateTestMetricsAcrossReports reports !! n =
  if decide (n ∈ map name (testsSeen reports))
  then Some (expectedEntry n reports)
  else None.
Proof.
  unfold aggregateTestMetricsAcrossReports.
  rewrite aggregate_closed_from, lookup_empty.
  destruct (decide (n ∈ map name (testsSeen reports))); reflexivity.
Qed.

(** X1. The entry of a name after aggregation, in closed form: absent when
    no valid report holds a test of that name; otherwise every counter is the
    sum, over the tests of that name in the valid reports, of that test's
    contribution (totalAttempts: 1 + retries; totalAttemptsFailed: retries,
    plus 1 + retries again when the test failed; one result; one status
    bucket; flaky when [isTestFlaky]; the duration), reportsAnalyzed stays 0
    and appearsInRuns is the number of valid reports holding the name. *)
Theorem aggregate_entry_closed_form (reports : list CtrfReport) (n : string) :
  aggregateTestMetricsAcrossReports reports !! n =
  if decide (n ∈ map name (testsSeen reports))
  then Some (expectedEntry n reports)
  else None.
Proof.
  unfold aggregateTestMetricsAcrossReports.
  rewrite aggregate_closed_from, lookup_empty.
  destruct (decide (n ∈ map name (testsSeen reports))); reflexivity.
Qed.

Lemma sumFor_le f g n ts :
  (∀ test, f test ≤ g test) → sumFor f n ts ≤ sumFor g n ts.
Proof.
  intros Hfg. induction ts as [|test ts IH]; simpl; [lia|].
  destruct (decide (name test = n)); [|done]. specialize (Hfg test). lia.
Qed.

Lemma sumFor_buckets n ts :
  sumFor failedOf n ts + sumFor passedOf n ts + sumFor skippedOf n ts
  = sumFor (fun _ => 1) n ts.
Proof.
  unfold sumFor. induction ts as [|test ts IH]; simpl; [done|].
  destruct (decide (name test = n)); [|done].
  unfold failedOf at 1, passedOf at 1, skippedOf at 1.
  destruct (status test); simpl; lia.
Qed.

Lemma sumFor_present n ts : n ∈ map name ts → 1 ≤ sumFor (fun _ => 1) n ts.
Proof.
  induction ts as [|test ts IH]; simpl.
  - intros H. by apply not_elem_of_nil in H.
  - pose proof (sumFor_le (fun _ => 0) (fun _ => 1) n ts
                  ltac:(intros; simpl; lia)) as Hle.
    rewrite sumFor_zero in Hle. fold (sumFor (fun _ => 1) n ts).
    intros [->|Hin]%elem_of_cons.
    + rewrite decide_True by done. lia.
    + destruct (decide (name test = n)); [lia | auto].
Qed.

Lemma runsContaining_le_results n reports :
  Z.of_nat (runsContaining n reports) ≤ sumFor (fun _ => 1) n (testsSeen reports).
Proof.
  induction reports as [|report reports IH]; [done|].
  rewrite testsSeen_cons, runsContaining_cons, sumFor_app.
  destruct (decide (n ∈ map name (testsOfValid report))) as [Hin|Hnin].
  - pose proof (sumFor_present _ _ Hin). lia.
  - rewrite sumFor_absent by done. lia.
Qed.

Lemma runsContaining_present n reports :
  n ∈ map name (testsSeen reports) → (1 ≤ runsContaining n reports)%nat.
Proof.
  induction reports as [|report reports IH].
  - intros H. by apply not_elem_of_nil in H.
  - rewrite testsSeen_cons, runsContaining_cons, map_app.
    destruct (decide (n ∈ map name (testsOfValid report))); [lia|].
    intros [?|?]%elem_of_app; [done | auto].
Qed.

Lemma entry_invariants
    (reports : list CtrfReport) (n : string) (m : AggregatedTestMetrics) :
  aggregateTestMetricsAcrossReports reports !! n = Some m →
  totalResultsFailed m + totalResultsPassed m + totalResultsSkipped m
  = totalResults m
  ∧ 0 ≤ totalResultsFailed m ∧ 0 ≤ totalResultsPassed m
  ∧ 0 ≤ totalResultsSkipped m
  ∧ 0 ≤ totalResultsFlaky m ≤ totalResults m
  ∧ 1 ≤ appearsInRuns m ≤ totalResults m
  ∧ appearsInRuns m ≤ Z.of_nat (length reports)
  ∧ reportsAnalyzed m = 0.
Proof.
  rewrite aggregate_lookup_closed.
  destruct (decide (n ∈ map name (testsSeen reports))) as [Hin|]; [|done].
  intros [= <-]. simpl.
  pose proof (sumFor_buckets n (testsSeen reports)).
  assert (∀ test, 0 ≤ failedOf test) as Hf
    by (intros; unfold failedOf; case_bool_decide; lia).
  assert (∀ test, 0 ≤ passedOf test) as Hp
    by (intros; unfold passedOf; case_bool_decide; lia).
  assert (∀ test, 0 ≤ skippedOf test) as Hs
    by (intros; unfold skippedOf; case_bool_decide; lia).
  assert (∀ test, 0 ≤ flakyOf test) as Hk0
    by (intros test; unfold flakyOf; destruct (isTestFlaky test); lia).
  assert (∀ test, flakyOf test ≤ 1) as Hk1
    by (intros test; unfold flakyOf; destruct (isTestFlaky test); lia).
  apply (sumFor_le (fun _ => 0) _ n (testsSeen reports)) in Hf, Hp, Hs, Hk0.
  apply (sumFor_le _ (fun _ => 1) n (testsSeen reports)) in Hk1.
  rewrite sumFor_zero in Hf, Hp, Hs, Hk0.
  pose proof (runsContaining_le_results n reports).
  pose proof (runsContaining_present n reports Hin).
  assert (runsContaining n reports ≤ length reports)%nat
    by apply length_filter.
  repeat split; lia.
Qed.

(** X2. Invariants of every entry of the aggregated map: each result lands
    in exactly one of the failed, passed and skipped buckets (the three sum
    to totalResults and none is negative), the flaky count lies between 0
    and totalResults, appearsInRuns is at least 1, at most totalResults and
    at most the number of reports, and reportsAnalyzed is still 0. *)
Theorem aggregated_entry_invariants
    (reports : list CtrfReport) (n : string) (m : AggregatedTestMetrics) :
  aggregateTestMetricsAcrossReports reports !! n = Some m →
  totalResultsFailed m + totalResultsPassed m + totalResultsSkipped m
  = totalResults m
  ∧ 0 ≤ totalResultsFailed m ∧ 0 ≤ totalResultsPassed m
  ∧ 0 ≤ totalResultsSkipped m
  ∧ 0 ≤ totalResultsFlaky m ≤ totalResults m
  ∧ 1 ≤ appearsInRuns m ≤ totalResults m
  ∧ appearsInRuns m ≤ Z.of_nat (length reports)
  ∧ reportsAnalyzed m = 0.
Proof.
  rewrite aggregate_lookup_closed.
  destruct (decide (n ∈ map name (testsSeen reports))) as [Hin|]; [|done].
  intros [= <-]. simpl.
  pose proof (sumFor_buckets n (testsSeen reports)).
  assert (∀ test, 0 ≤ failedOf test) as Hf
    by (intros; unfold failedOf; case_bool_decide; lia).
  assert (∀ test, 0 ≤ passedOf test) as Hp
    by (intros; unfold passedOf; case_bool_decide; lia).
  assert (∀ test, 0 ≤ skippedOf test) as Hs
    by (intros; unfold skippedOf; case_bool_decide; lia).
  assert (∀ test, 0 ≤ flakyOf test) as Hk0
    by (intros test; unfold flakyOf; destruct (isTestFlaky test); lia).
  assert (∀ test, flakyOf test ≤ 1) as Hk1
    by (intros test; unfold flakyOf; destruct (isTestFlaky test); lia).
  apply (sumFor_le (fun _ => 0) _ n (testsSeen reports)) in Hf, Hp, Hs, Hk0.
  apply (sumFor_le _ (fun _ => 1) n (testsSeen reports)) in Hk1.
  rewrite sumFor_zero in Hf, Hp, Hs, Hk0.
  pose proof (runsContaining_le_results n reports).
  pose proof (runsContaining_present n reports Hin).
  assert (runsContaining n reports ≤ length reports)%nat
    by apply length_filter.
  repeat split; lia.
Qed.

Lemma aggregated_entry_invariants_witness :
  let R := mkReport (Some (mkResults (mkSummary 3 2 1 0 0 0 1000 5000)
             (TestsArray [mkTest "a" passed 100 (Some 1) None;
                          mkTest "b" failed 50 None None;
                          mkTest "a" pending 70 None None]) None)) None in
  ∃ m : AggregatedTestMetrics,
    aggregateTestMetricsAcrossReports [R; mkReport None None; R] !! "a" = Some m
    ∧ totalResultsFailed m + totalResultsPassed m + totalResultsSkipped m
      = totalResults m
    ∧ 1 ≤ appearsInRuns m ≤ totalResults m.
Proof.
  intros R. eexists. split; [vm_compute; reflexivity|].
  match goal with
  | |- context [totalResults ?m] =>
      destruct (aggregated_entry_invariants
                  [R; mkReport None None; R] "a" m eq_refl)
        as (Hsum & _ & _ & _ & _ & Hruns & _)
  end.
  split; [exact Hsum | exact Hruns].
Defined.

(** ** Order of the reports *)

Lemma sumFor_Permutation f n ts1 ts2 :
  ts1 ≡ₚ ts2 → sumFor f n ts1 = sumFor f n ts2.
Proof.
  unfold sumFor. induction 1 as [|x l l' _ IH|x y l|l l' l'' _ IH1 _ IH2]; simpl.
  - done.
  - by rewrite IH.
  - destruct (decide (name x = n)), (decide (name y = n)); lia.
  - congruence.
Qed.

Lemma testsSeen_Permutation reports reports' :
  reports ≡ₚ reports' → testsSeen reports ≡ₚ testsSeen reports'.
Proof. intros H. unfold testsSeen. by apply Permutation_flat_map. Qed.

Lemma runsContaining_Permutation n reports reports' :
  reports ≡ₚ reports' → runsContaining n reports = runsContaining n reports'.
Proof. intros H. unfold runsContaining. by rewrite H. Qed.

Lemma aggregate_Permutation (reports reports' : list CtrfReport) :
  reports ≡ₚ reports' →
  aggregateTestMetricsAcrossReports reports
  = aggregateTestMetricsAcrossReports reports'.
Proof.
  intros Hperm. apply map_eq. intros n.
  rewrite !aggregate_lookup_closed. unfold expectedEntry, entryOf.
  pose proof (testsSeen_Permutation _ _ Hperm) as HT.
  rewrite (runsContaining_Permutation n _ _ Hperm).
  rewrite !(sumFor_Permutation _ n _ _ HT).
  destruct (decide (n ∈ map name (testsSeen reports))) as [Hin|Hnin];
    destruct (decide (n ∈ map name (testsSeen reports'))) as [Hin'|Hnin'];
    try done.
  - destruct Hnin'. by rewrite <- HT.
  - destruct Hnin. by rewrite HT.
Qed.

(** X3. The aggregated map does not depend on the order of the reports. *)
Theorem aggregate_order_independent (reports reports' : list CtrfReport) :
  reports ≡ₚ reports' →
  aggregateTestMetricsAcrossReports reports
  = aggregateTestMetricsAcrossReports reports'.
Proof.
  intros Hperm. apply map_eq. intros n.
  rewrite !aggregate_lookup_closed. unfold expectedEntry, entryOf.
  pose proof (testsSeen_Permutation _ _ Hperm) as HT.
  rewrite (runsContaining_Permutation n _ _ Hperm).
  rewrite !(sumFor_Permutation _ n _ _ HT).
  destruct (decide (n ∈ map name (testsSeen reports))) as [Hin|Hnin];
    destruct (decide (n ∈ map name (testsSeen reports'))) as [Hin'|Hnin'];
    try done.
  - destruct Hnin'. by rewrite <- HT.
  - destruct Hnin. by rewrite HT.
Qed.

Lemma aggregate_order_independent_witness :
  let report ts := mkReport (Some (mkResults (mkSummary 0 0 0 0 0 0 1000 5000)
                     (TestsArray ts) None)) None in
  let current := report [mkTest "a" passed 100 None None;
                         mkTest "b" failed 50 (Some 2) None] in
  let older := report [mkTest "a" failed 120 (Some 1) None] in
  aggregateTestMetricsAcrossReports [current; older; mkReport None None]
  = aggregateTestMetricsAcrossReports [mkReport None None; older; current].
Proof.
  intros report current older.
  apply aggregate_order_independent.
  apply Permutation_rev.
Defined.

(** ** Consolidated counters as totals over the tests *)

Lemma sumOver_delete F (m : gmap string AggregatedTestMetrics) k x :
  m !! k = Some x →
  CtrfInsights.sumOver F m = CtrfInsights.sumOver F (delete k m) + F x.
Proof.
  intros Hk. unfold CtrfInsights.sumOver.
  rewrite (map_fold_delete_L _ _ k x m); [done| |done].
  intros. lia.
Qed.

Lemma sumOver_insert F (m : gmap string AggregatedTestMetrics) k v :
  CtrfInsights.sumOver F (<[k:=v]> m)
  = CtrfInsights.sumOver F m - from_option F 0 (m !! k) + F v.
Proof.
  rewrite (sumOver_delete F (<[k:=v]> m) k v) by apply lookup_insert_eq.
  rewrite delete_insert_eq.
  destruct (m !! k) as [x|] eqn:Hk; simpl.
  - rewrite (sumOver_delete F m k x Hk). lia.
  - rewrite delete_id by done. lia.
Qed.

Lemma sumAll_app f ts1 ts2 : sumAll f (ts1 ++ ts2) = sumAll f ts1 + sumAll f ts2.
Proof. unfold sumAll. induction ts1 as [|t ts1 IH]; simpl; lia. Qed.

Lemma sumAll_one ts : sumAll (fun _ => 1) ts = Z.of_nat (length ts).
Proof. unfold sumAll. induction ts as [|t ts IH]; simpl length; simpl foldr; lia. Qed.

Lemma sumAll_le f g ts :
  (∀ test, f test ≤ g test) → sumAll f ts ≤ sumAll g ts.
Proof.
  intros Hfg. unfold sumAll. induction ts as [|t ts IH]; simpl; [lia|].
  specialize (Hfg t). lia.
Qed.

Section MapTotals.
Variable F : AggregatedTestMetrics -> Z.
Variable f : CtrfTest -> Z.
Hypothesis F_recordTest :
  ∀ test metrics, F (recordTest test metrics) = F metrics + f test.
Hypothesis F_empty : F emptyMetrics = 0.
Hypothesis F_bump : ∀ metrics, F (bumpAppears metrics) = F metrics.

Lemma sumOver_tallyTest (m : gmap string AggregatedTestMetrics) test :
  CtrfInsights.sumOver F (tallyTest m test) = CtrfInsights.sumOver F m + f test.
Proof.
  unfold tallyTest. cbv zeta. destruct (m !! name test) as [x|] eqn:Hx.
  - rewrite bool_decide_eq_true_2 by eauto. rewrite Hx.
    rewrite sumOver_insert, Hx. simpl. rewrite F_recordTest. lia.
  - rewrite bool_decide_eq_false_2 by (by intros [? ?]).
    rewrite lookup_insert_eq, insert_insert_eq, sumOver_insert, Hx. simpl.
    rewrite F_recordTest, F_empty. lia.
Qed.

Lemma sumOver_markAppearance (m : gmap string AggregatedTestMetrics) k :
  CtrfInsights.sumOver F (markAppearance m k) = CtrfInsights.sumOver F m.
Proof.
  unfold markAppearance. destruct (m !! k) as [x|] eqn:Hx; [|done].
  rewrite sumOver_insert, Hx. simpl.
  change (mkTestMetrics x (appearsInRuns x + 1)) with (bumpAppears x).
  rewrite F_bump. lia.
Qed.

Lemma sumOver_foldReport (m : gmap string AggregatedTestMetrics) report :
  CtrfInsights.sumOver F (foldReport m report)
  = CtrfInsights.sumOver F m + sumAll f (testsOfValid report).
Proof.
  unfold foldReport, testsOfValid.
  destruct (validateReportForInsights report); simpl; [|lia].
  generalize (testsInThisReport (reportTests report)). intros names.
  assert (∀ m', CtrfInsights.sumOver F (foldl markAppearance m' names)
                = CtrfInsights.sumOver F m') as ->.
  { induction names as [|k names IH]; intros m'; [done|].
    simpl. by rewrite IH, sumOver_markAppearance. }
  revert m. induction (reportTests report) as [|test ts IH]; intros m; simpl.
  - lia.
  - rewrite IH, sumOver_tallyTest. lia.
Qed.

Lemma sumOver_aggregate reports :
  CtrfInsights.sumOver F (aggregateTestMetricsAcrossReports reports)
  = sumAll f (testsSeen reports).
Proof.
  unfold aggregateTestMetricsAcrossReports.
  assert (∀ m, CtrfInsights.sumOver F (foldl foldReport m reports)
               = CtrfInsights.sumOver F m + sumAll f (testsSeen reports)) as H.
  { induction reports as [|report reports IH]; intros m; simpl.
    - lia.
    - rewrite IH, sumOver_foldReport.
      change (flat_map testsOfValid reports) with (testsSeen reports).
      rewrite sumAll_app. lia. }
  rewrite H. unfold CtrfInsights.sumOver at 1. by rewrite map_fold_empty.
Qed.
End MapTotals.

Lemma consolidate_sums_rest (metricsMap : gmap string AggregatedTestMetrics) :
  totalAttemptsFailed (consolidateTestMetricsToRunMetrics metricsMap)
  = CtrfInsights.sumOver totalAttemptsFailed metricsMap
  ∧ totalResultsPassed (consolidateTestMetricsToRunMetrics metricsMap)
    = CtrfInsights.sumOver totalResultsPassed metricsMap.
Proof.
  unfold consolidateTestMetricsToRunMetrics, CtrfInsights.sumOver.
  cbv zeta. rewrite !map_fold_foldr. simpl.
  induction (map_to_list metricsMap) as [|[key metrics] entries IH]; [done|].
  simpl. destruct IH as (-> & ->). split; lia.
Qed.

Lemma consolidate_totals_closed (reports : list CtrfReport) :
  let rm := consolidateTestMetricsToRunMetrics
              (aggregateTestMetricsAcrossReports reports) in
  let ts := testsSeen reports in
  totalResults rm = Z.of_nat (length ts)
  ∧ totalAttempts rm = sumAll attemptsOf ts
  ∧ totalAttemptsFailed rm = sumAll attemptsFailedOf ts
  ∧ totalResultsFailed rm = sumAll failedOf ts
  ∧ totalResultsPassed rm = sumAll passedOf ts
  ∧ totalResultsSkipped rm = sumAll skippedOf ts
  ∧ totalResultsFlaky rm = sumAll flakyOf ts
  ∧ totalResultsDuration rm = sumAll duration ts
  ∧ totalResultsFailed rm + totalResultsPassed rm + totalResultsSkipped rm
    = totalResults rm.
Proof.
  intros rm ts. subst rm.
  destruct (consolidate_sums (aggregateTestMetricsAcrossReports reports))
    as (Ha & Hr & Hf & Hs & Hk & Hd).
  destruct (consolidate_sums_rest (aggregateTestMetricsAcrossReports reports))
    as (Haf & Hp).
  rewrite Ha, Hr, Hf, Hs, Hk, Hd, Haf, Hp.
  rewrite (sumOver_aggregate _ _ recordTest_totalResults) by done.
  rewrite (sumOver_aggregate _ _ recordTest_totalAttempts) by done.
  rewrite (sumOver_aggregate _ _ recordTest_totalAttemptsFailed) by done.
  rewrite (sumOver_aggregate _ _ recordTest_totalResultsFailed) by done.
  rewrite (sumOver_aggregate _ _ recordTest_totalResultsPassed) by done.
  rewrite (sumOver_aggregate _ _ recordTest_totalResultsSkipped) by done.
  rewrite (sumOver_aggregate _ _ recordTest_totalResultsFlaky) by done.
  rewrite (sumOver_aggregate _ _ recordTest_totalResultsDuration) by done.
  fold ts. rewrite sumAll_one. repeat split.
  rewrite <- sumAll_one. unfold sumAll.
  induction ts as [|test ts IH]; simpl; [done|].
  unfold failedOf at 1, passedOf at 1, skippedOf at 1.
  destruct (status test); simpl; lia.
Qed.

(** X4. The consolidated run metrics are totals over every test of every
    valid report: totalResults is the number of such tests, each other
    counter is the sum of the tests' contributions, and the failed, passed
    and skipped totals add up to totalResults. *)
Theorem consolidated_totals (reports : list CtrfReport) :
  let rm := consolidateTestMetricsToRunMetrics
              (aggregateTestMetricsAcrossReports reports) in
  let ts := testsSeen reports in
  totalResults rm = Z.of_nat (length ts)
  ∧ totalAttempts rm = sumAll attemptsOf ts
  ∧ totalAttemptsFailed rm = sumAll attemptsFailedOf ts
  ∧ totalResultsFailed rm = sumAll failedOf ts
  ∧ totalResultsPassed rm = sumAll passedOf ts
  ∧ totalResultsSkipped rm = sumAll skippedOf ts
  ∧ totalResultsFlaky rm = sumAll flakyOf ts
  ∧ totalResultsDuration rm = sumAll duration ts
  ∧ totalResultsFailed rm + totalResultsPassed rm + totalResultsSkipped rm
    = totalResults rm.
Proof.
  intros rm ts. subst rm.
  destruct (consolidate_sums (aggregateTestMetricsAcrossReports reports))
    as (Ha & Hr & Hf & Hs & Hk & Hd).
  destruct (consolidate_sums_rest (aggregateTestMetricsAcrossReports reports))
    as (Haf & Hp).
  rewrite Ha, Hr, Hf, Hs, Hk, Hd, Haf, Hp.
  rewrite (sumOver_aggregate _ _ recordTest_totalResults) by done.
  rewrite (sumOver_aggregate _ _ recordTest_totalAttempts) by done.
  rewrite (sumOver_aggregate _ _ recordTest_totalAttemptsFailed) by done.
  rewrite (sumOver_aggregate _ _ recordTest_totalResultsFailed) by done.
  rewrite (sumOver_aggregate _ _ recordTest_totalResultsPassed) by done.
  rewrite (sumOver_aggregate _ _ recordTest_totalResultsSkipped) by done.
  rewrite (sumOver_aggregate _ _ recordTest_totalResultsFlaky) by done.
  rewrite (sumOver_aggregate _ _ recordTest_totalResultsDuration) by done.
  fold ts. rewrite sumAll_one. repeat split.
  rewrite <- sumAll_one. unfold sumAll.
  induction ts as [|test ts IH]; simpl; [done|].
  unfold failedOf at 1, passedOf at 1, skippedOf at 1.
  destruct (status test); simpl; lia.
Qed.

(** ** Rates stay between 0 and 100 *)

Section PercentRange.
Local Open Scope Q_scope.

Lemma ratio_bounds (a b : Z) :
  (0 <= a <= b)%Z → (0 < b)%Z →
  0 <= inject_Z a / inject_Z b /\ inject_Z a / inject_Z b <= 1.
Proof.
  intros [Ha Hab] Hb.
  assert (inject_Z 0 < inject_Z b) as Hb' by (by rewrite <- Zlt_Qlt).
  assert (inject_Z 0 <= inject_Z a) as Ha' by (by rewrite <- Zle_Qle).
  assert (inject_Z a <= inject_Z b) as Hab' by (by rewrite <- Zle_Qle).
  change (inject_Z 0) with 0 in Hb', Ha'.
  split.
  - apply Qle_shift_div_l; [done|]. lra.
  - apply Qle_shift_div_r; [done|]. lra.
Qed.

Lemma roundHalfAway_range (x : Q) (lo hi : Z) :
  inject_Z lo <= x → x <= inject_Z hi →
  (lo <= roundHalfAway x <= hi)%Z.
Proof.
  intros Hlo Hhi. destruct (roundHalfAway_bounds x) as [H1 H2].
  split.
  - assert (inject_Z (lo - 1) < inject_Z (roundHalfAway x)) as H.
    { unfold Z.sub. rewrite inject_Z_plus, inject_Z_opp.
      change (inject_Z 1) with 1. lra. }
    rewrite <- Zlt_Qlt in H. lia.
  - assert (inject_Z (roundHalfAway x) < inject_Z (hi + 1)) as H.
    { rewrite inject_Z_plus. change (inject_Z 1) with 1. lra. }
    rewrite <- Zlt_Qlt in H. lia.
Qed.

Lemma percent_rate_in_range (a b : Z) :
  (0 <= a <= b)%Z → (0 < b)%Z →
  inPercentRange (toFixed2 (jsTimes100 (jsDivide a b))) = true.
Proof.
  intros Hab Hb. unfold jsDivide.
  destruct (Z.eqb_spec b 0) as [->|_]; [lia|].
  cbn [jsTimes100 toFixed2 inPercentRange].
  destruct (ratio_bounds a b Hab Hb) as [H0 H1].
  pose proof (roundToDouble_nonneg _ H0) as Hr0.
  pose proof (roundToDouble_upper _ 1 H1 ltac:(lia)) as Hr1.
  set (r := roundToDouble (inject_Z a / inject_Z b)) in *.
  change (inject_Z 1) with 1 in Hr1.
  assert (0 <= Qred r * 100) as Hy0 by (rewrite Qred_correct; lra).
  assert (Qred r * 100 <= inject_Z 100) as Hy1
    by (rewrite Qred_correct; change (inject_Z 100) with 100; lra).
  apply roundToDouble_nonneg in Hy0.
  apply roundToDouble_upper in Hy1; [|lia].
  set (y := roundToDouble (Qred r * 100)) in *.
  change (inject_Z 100) with 100 in Hy1.
  destruct (roundHalfAway_range (Qred y * 100) 0 10000) as [Hn0 Hn1].
  { rewrite Qred_correct. change (inject_Z 0) with 0. lra. }
  { rewrite Qred_correct. change (inject_Z 10000) with 10000. lra. }
  apply andb_true_iff. rewrite !Qle_bool_iff, !Qred_correct.
  unfold Qle. simpl. split; lia.
Qed.
End PercentRange.

Lemma sumAll_le_in f g ts :
  (∀ test, test ∈ ts → f test ≤ g test) → sumAll f ts ≤ sumAll g ts.
Proof.
  unfold sumAll. induction ts as [|t ts IH]; intros Hfg; simpl; [lia|].
  pose proof (Hfg t ltac:(left)).
  assert (∀ test, test ∈ ts → f test ≤ g test) as Hrest
    by (intros; apply Hfg; by right).
  specialize (IH Hrest). lia.
Qed.

Lemma sumAll_zero ts : sumAll (fun _ => 0) ts = 0.
Proof. unfold sumAll. induction ts as [|t ts IH]; simpl; lia. Qed.

Lemma contribution_bounds test :
  0 ≤ failedOf test ≤ 1 ∧ 0 ≤ skippedOf test ≤ 1 ∧ 0 ≤ flakyOf test ≤ 1.
Proof.
  unfold failedOf, skippedOf, flakyOf.
  repeat case_bool_decide; destruct (isTestFlaky test); lia.
Qed.

(** X5. Over any list of reports the run-level fail rate and skipped rate
    are finite numbers between 0 and 100.  The run-level flaky rate is too,
    provided no test of a valid report carries a negative retries count. *)
Theorem run_rates_within_percent (reports : list CtrfReport) :
  let rm := consolidateTestMetricsToRunMetrics
              (aggregateTestMetricsAcrossReports reports) in
  inPercentRange (calculateFailRateFromMetrics rm) = true
  ∧ inPercentRange (calculateSkippedRateFromMetrics rm) = true
  ∧ ((∀ test, test ∈ testsSeen reports → 0 ≤ default 0 (retries test)) →
       inPercentRange (calculateFlakyRateFromMetrics rm) = true).
Proof.
  intros rm.
  destruct (consolidate_totals_closed reports)
    as (Hr & Ha & _ & Hf & _ & Hs & Hk & _ & _).
  fold rm in Hr, Ha, Hf, Hs, Hk.
  pose proof (sumAll_one (testsSeen reports)) as Hone.
  assert (0 ≤ totalResultsFailed rm ≤ totalResults rm) as Hfb.
  { rewrite Hf, Hr, <- Hone. split.
    - rewrite <- (sumAll_zero (testsSeen reports)).
      apply sumAll_le. intros t. apply contribution_bounds.
    - apply sumAll_le. intros t. apply contribution_bounds. }
  assert (0 ≤ totalResultsSkipped rm ≤ totalResults rm) as Hsb.
  { rewrite Hs, Hr, <- Hone. split.
    - rewrite <- (sumAll_zero (testsSeen reports)).
      apply sumAll_le. intros t. apply contribution_bounds.
    - apply sumAll_le. intros t. apply contribution_bounds. }
  split; [|split].
  - unfold calculateFailRateFromMetrics.
    destruct (Z.eqb_spec (totalResults rm) 0); [done|].
    apply percent_rate_in_range; lia.
  - unfold calculateSkippedRateFromMetrics.
    destruct (Z.eqb_spec (totalResults rm) 0); [done|].
    apply percent_rate_in_range; lia.
  - intros Hretries. unfold calculateFlakyRateFromMetrics.
    destruct (Z.eqb_spec (totalAttempts rm) 0); [done|].
    assert (0 ≤ totalResultsFlaky rm ≤ totalAttempts rm) as Hkb.
    { rewrite Hk, Ha. split.
      - rewrite <- (sumAll_zero (testsSeen reports)).
        apply sumAll_le. intros t. apply contribution_bounds.
      - apply sumAll_le_in. intros t Ht. specialize (Hretries t Ht).
        pose proof (contribution_bounds t). unfold attemptsOf. lia. }
    apply percent_rate_in_range; lia.
Qed.

Lemma run_rates_within_percent_witness :
  let report := mkReport (Some (mkResults (mkSummary 3 2 1 0 0 0 1000 5000)
                  (TestsArray [mkTest "a" passed 100 (Some 2) None;
                               mkTest "b" failed 50 None (Some true);
                               mkTest "c" skipped 0 None None]) None)) None in
  inPercentRange (calculateFlakyRateFromMetrics
    (consolidateTestMetricsToRunMetrics
       (aggregateTestMetricsAcrossReports [report; report]))) = true.
Proof.
  intros report.
  apply (run_rates_within_percent [report; report]).
  intros test Hin. vm_compute in Hin.
  repeat (apply elem_of_cons in Hin as [->|Hin]; [vm_compute; discriminate|]).
  by apply not_elem_of_nil in Hin.
Defined.

(** With a negative retries count the run-level flaky rate can leave the
    range: two flagged tests, one of them with retries = -1, give 200. *)
Example flaky_rate_negative_retries :
  let report := mkReport (Some (mkResults (mkSummary 2 2 0 0 0 0 1000 5000)
                  (TestsArray [mkTest "a" passed 10 (Some (-1)) (Some true);
                               mkTest "b" passed 10 None (Some true)]) None)) None in
  calculateFlakyRateFromMetrics
    (consolidateTestMetricsToRunMetrics
       (aggregateTestMetricsAcrossReports [report])) = ofZ 200.
Proof. reflexivity. Qed.

(** X6. For every entry of the aggregated map the three test-level rates
    are finite numbers between 0 and 100, whatever the retries counts: the
    test-level flaky rate divides by totalResults, which bounds the flaky
    count. *)
Theorem test_rates_within_percent
    (reports : list CtrfReport) (n : string) (m : AggregatedTestMetrics) :
  aggregateTestMetricsAcrossReports reports !! n = Some m →
  inPercentRange (current (calculateTestFlakyRate n m)) = true
  ∧ inPercentRange (current (calculateTestFailRate n m)) = true
  ∧ inPercentRange (current (calculateTestSkippedRate n m)) = true.
Proof.
  intros Hm.
  destruct (entry_invariants reports n m Hm)
    as (Hsum & Hf & Hp & Hs & Hk & Hruns & _).
  unfold calculateTestFlakyRate, calculateTestFailRate, calculateTestSkippedRate.
  simpl. destruct (Z.eqb_spec (totalResults m) 0); [lia|].
  repeat split; apply percent_rate_in_range; lia.
Qed.

Lemma test_rates_within_percent_witness :
  let report := mkReport (Some (mkResults (mkSummary 2 2 0 0 0 0 1000 5000)
                  (TestsArray [mkTest "a" passed 10 (Some (-1)) (Some true);
                               mkTest "a" failed 10 (Some 3) None]) None)) None in
  ∃ m : AggregatedTestMetrics,
    aggregateTestMetricsAcrossReports [report] !! "a" = Some m
    ∧ inPercentRange (current (calculateTestFlakyRate "a" m)) = true.
Proof.
  intros report. eexists. split; [vm_compute; reflexivity|].
  match goal with
  | |- context [calculateTestFlakyRate _ ?m] =>
      apply (test_rates_within_percent [report] "a" m eq_refl)
  end.
Defined.

(** ** Two-decimal numbers and the baseline differ *)

Section TwoDecimals.
Local Open Scope Q_scope.

Lemma roundHalfAway_inject_Z (x : Q) (n : Z) :
  x == inject_Z n → roundHalfAway x = n.
Proof.
  intros Hx. destruct (roundHalfAway_range x n n) as [H1 H2];
    [rewrite Hx; apply Qle_refl..|]. lia.
Qed.

Lemma roundHalfAway_comp (x y : Q) : x == y → roundHalfAway x = roundHalfAway y.
Proof.
  intros Hxy. unfold roundHalfAway.
  destruct (Qle_bool 0 x) eqn:Hx, (Qle_bool 0 y) eqn:Hy.
  - by rewrite Hxy.
  - apply Qle_bool_iff in Hx. rewrite Hxy in Hx. apply Qle_bool_iff in Hx.
    congruence.
  - apply Qle_bool_iff in Hy. rewrite <- Hxy in Hy. apply Qle_bool_iff in Hy.
    congruence.
  - by rewrite Hxy.
Qed.

Lemma roundHalfAway_opp (x : Q) : roundHalfAway (- x) = (- roundHalfAway x)%Z.
Proof.
  unfold roundHalfAway.
  destruct (Qle_bool 0 x) eqn:Hx, (Qle_bool 0 (- x)) eqn:Hnx.
  - apply Qle_bool_iff in Hx, Hnx.
    assert (x == 0) as H0 by lra.
    rewrite H0. reflexivity.
  - f_equal. apply Qfloor_comp. lra.
  - by rewrite Z.opp_involutive.
  - assert (~ 0 <= x) as Hx' by (rewrite <- Qle_bool_iff; congruence).
    assert (~ 0 <= - x) as Hnx' by (rewrite <- Qle_bool_iff; congruence).
    lra.
Qed.
End TwoDecimals.

Lemma toFixed2_hundredths (n : Z) : toFixed2 (hundredthsOf n) = hundredthsOf n.
Proof.
  unfold hundredthsOf, toFixed2. do 3 f_equal.
  apply roundHalfAway_inject_Z.
  rewrite Qred_correct, hundredths. unfold Qeq. simpl. lia.
Qed.

Lemma toFixed2_is_hundredths (q : Q) :
  toFixed2 (Finite q) = hundredthsOf (roundHalfAway (q * 100)).
Proof. reflexivity. Qed.

Lemma jsMinus_hundredths (a b : Z) :
  jsMinus (hundredthsOf a) (hundredthsOf b) = hundredthsOf (a - b).
Proof.
  unfold hundredthsOf, jsMinus. f_equal. apply Qred_complete.
  rewrite !Qred_correct. unfold Qeq, Qminus, Qplus, Qopp. simpl. lia.
Qed.

(** [Number(x.toFixed(2))] is idempotent: rounding a number that already
    has two decimals changes nothing. *)
Lemma toFixed2_idempotent (x : JsNumber) : toFixed2 (toFixed2 x) = toFixed2 x.
Proof.
  destruct x as [q| | |]; try reflexivity.
  rewrite toFixed2_is_hundredths. apply toFixed2_hundredths.
Qed.

Lemma guarded_rate_hundredths (a b : Z) :
  ∃ n, (if b =? 0 then ofZ 0 else toFixed2 (jsTimes100 (jsDivide a b)))
       = hundredthsOf n.
Proof.
  destruct (Z.eqb_spec b 0) as [->|Hb]; [by exists 0|].
  unfold jsDivide. destruct (Z.eqb_spec b 0); [done|]. simpl. eexists.
  apply toFixed2_is_hundredths.
Qed.

Lemma guarded_average_hundredths (a b : Z) :
  ∃ n, (if b =? 0 then ofZ 0 else toFixed2 (jsDivide a b)) = hundredthsOf n.
Proof.
  destruct (Z.eqb_spec b 0) as [->|Hb]; [by exists 0|].
  unfold jsDivide. destruct (Z.eqb_spec b 0); [done|]. eexists.
  apply toFixed2_is_hundredths.
Qed.

(** Every metric of a composed snapshot is a multiple of 1/100. *)
Lemma composed_snapshot_hundredths currentReport previousReports :
  Forall (fun metric : Insights -> InsightsMetric =>
    ∃ n, current (metric (calculateCurrentInsights currentReport previousReports))
         = hundredthsOf n)
    [flakyRate; failRate; skippedRate; averageTestDuration; averageRunDuration].
Proof.
  each_metric; simpl;
    first [apply guarded_rate_hundredths | apply guarded_average_hundredths].
Qed.

(** X7. Diffing two snapshots composed by [calculateCurrentInsights] loses
    nothing to rounding: for each of the five metrics the two current values
    are a/100 and b/100 for integers a and b, and change is exactly
    (a - b)/100. *)
Theorem baseline_change_exact
    (current1 current2 : CtrfReport) (previous1 previous2 : list CtrfReport)
    (res1 res2 : option Results) :
  let snapshot1 := calculateCurrentInsights current1 previous1 in
  let snapshot2 := calculateCurrentInsights current2 previous2 in
  ∃ out,
    calculateReportInsightsBaseline (mkReport res1 (Some snapshot1))
      (mkReport res2 (Some snapshot2)) = (Some out, [])
    ∧ Forall (fun metric : Insights -> InsightsMetric =>
        ∃ a b : Z,
          current (metric out) = hundredthsOf a
          ∧ previous (metric out) = hundredthsOf b
          ∧ change (metric out) = hundredthsOf (a - b))
        [flakyRate; failRate; skippedRate; averageTestDuration;
         averageRunDuration].
Proof.
  intros snapshot1 snapshot2. eexists. split; [reflexivity|].
  pose proof (composed_snapshot_hundredths current1 previous1) as H1.
  pose proof (composed_snapshot_hundredths current2 previous2) as H2.
  fold snapshot1 in H1. fold snapshot2 in H2.
  rewrite !Forall_cons in H1, H2.
  destruct H1 as ([a1 A1] & [a2 A2] & [a3 A3] & [a4 A4] & [a5 A5] & _).
  destruct H2 as ([b1 B1] & [b2 B2] & [b3 B3] & [b4 B4] & [b5 B5] & _).
  each_metric; cbn [flakyRate failRate skippedRate averageTestDuration
                    averageRunDuration diffMetric current previous change].
  - exists a1, b1. rewrite A1, B1, jsMinus_hundredths, toFixed2_hundredths. done.
  - exists a2, b2. rewrite A2, B2, jsMinus_hundredths, toFixed2_hundredths. done.
  - exists a3, b3. rewrite A3, B3, jsMinus_hundredths, toFixed2_hundredths. done.
  - exists a4, b4. rewrite A4, B4, jsMinus_hundredths, toFixed2_hundredths. done.
  - exists a5, b5. rewrite A5, B5, jsMinus_hundredths, toFixed2_hundredths. done.
Qed.

Lemma toFixed2_jsMinus_swap (x y : JsNumber) :
  toFixed2 (jsMinus y x) = jsNegate (toFixed2 (jsMinus x y)).
Proof.
  destruct x as [p| | |], y as [q| | |]; try reflexivity.
  unfold jsMinus, toFixed2, jsNegate. f_equal. apply Qred_complete.
  rewrite (Qred_correct (roundHalfAway (Qred (p - q) * 100) # 100)).
  rewrite (roundHalfAway_comp (Qred (q - p) * 100) (- (Qred (p - q) * 100)))
    by (rewrite !Qred_correct; ring).
  rewrite roundHalfAway_opp. unfold Qeq, Qopp. simpl. lia.
Qed.

(** X8. Swapping the two reports given to the differ swaps current and
    previous of every metric and negates its change. *)
Theorem baseline_swap_negates (reportA reportB : CtrfReport) (a b : Insights) :
  insights reportA = Some a →
  insights reportB = Some b →
  ∃ ab ba,
    calculateReportInsightsBaseline reportA reportB = (Some ab, [])
    ∧ calculateReportInsightsBaseline reportB reportA = (Some ba, [])
    ∧ Forall (fun metric : Insights -> InsightsMetric =>
        current (metric ba) = previous (metric ab)
        ∧ previous (metric ba) = current (metric ab)
        ∧ change (metric ba) = jsNegate (change (metric ab)))
        [flakyRate; failRate; skippedRate; averageTestDuration;
         averageRunDuration].
Proof.
  intros Ha Hb. unfold calculateReportInsightsBaseline. rewrite Ha, Hb.
  eexists. eexists. split; [reflexivity|]. split; [reflexivity|].
  each_metric; simpl; (split; [done|]; split; [done|]);
    apply toFixed2_jsMinus_swap.
Qed.

Lemma baseline_swap_negates_witness :
  let snapshot x :=
    mkInsights (currentOnly (hundredthsOf x)) (currentOnly (ofZ 0))
      (currentOnly (ofZ 0)) (currentOnly (ofZ 0)) (currentOnly (ofZ 0)) 1 None in
  ∃ ab ba,
    calculateReportInsightsBaseline (mkReport None (Some (snapshot 1005)))
      (mkReport None (Some (snapshot 333))) = (Some ab, [])
    ∧ calculateReportInsightsBaseline (mkReport None (Some (snapshot 333)))
        (mkReport None (Some (snapshot 1005))) = (Some ba, [])
    ∧ change (flakyRate ab) = hundredthsOf 672
    ∧ change (flakyRate ba) = jsNegate (change (flakyRate ab)).
Proof.
  intros snapshot.
  destruct (baseline_swap_negates
              (mkReport None (Some (snapshot 1005)))
              (mkReport None (Some (snapshot 333)))
              (snapshot 1005) (snapshot 333) eq_refl eq_refl)
    as (ab & ba & Hab & Hba & Hall).
  exists ab, ba. split; [done|]. split; [done|].
  apply Forall_cons_1 in Hall as [(_ & _ & Hneg) _].
  split; [|exact Hneg].
  injection Hab as <-. reflexivity.
Defined.

(** ** The two engines side by side *)

(** X9. On every input the two engines report the same flaky rate, fail
    rate, skipped rate and average test duration, through the single-metric
    entry points and through the composed snapshots alike. *)
Theorem engines_agree_on_rates
    (currentReport : CtrfReport) (previousReports : list CtrfReport) :
  let legacy := CtrfInsights.calculateCurrentInsights currentReport previousReports in
  let standalone := calculateCurrentInsights currentReport previousReports in
  CtrfInsights.calculateFlakyRateInsight currentReport previousReports
  = calculateFlakyRateInsight currentReport previousReports
  ∧ CtrfInsights.calculateFailRateInsight currentReport previousReports
    = calculateFailRateInsight currentReport previousReports
  ∧ CtrfInsights.calculateSkippedRateInsight currentReport previousReports
    = calculateSkippedRateInsight currentReport previousReports
  ∧ CtrfInsights.calculateAverageTestDurationInsight currentReport previousReports
    = calculateAverageTestDurationInsight currentReport previousReports
  ∧ CtrfInsights.flakyRate legacy = flakyRate standalone
  ∧ CtrfInsights.failRate legacy = failRate standalone
  ∧ CtrfInsights.skippedRate legacy = skippedRate standalone
  ∧ CtrfInsights.averageTestDuration legacy = averageTestDuration standalone
  ∧ flakyRate standalone = calculateFlakyRateInsight currentReport previousReports
  ∧ failRate standalone = calculateFailRateInsight currentReport previousReports
  ∧ skippedRate standalone
    = calculateSkippedRateInsight currentReport previousReports
  ∧ averageTestDuration standalone
    = calculateAverageTestDurationInsight currentReport previousReports
  ∧ averageRunDuration standalone
    = calculateAverageRunDurationInsight currentReport previousReports.
Proof.
  intros legacy standalone.
  destruct (engines_agree (aggregateTestMetricsAcrossReports
                             (currentReport :: previousReports)))
    as (Hk & Hf & Hs & Hd).
  unfold CtrfInsights.calculateFlakyRateInsight,
    CtrfInsights.calculateFailRateInsight,
    CtrfInsights.calculateSkippedRateInsight,
    CtrfInsights.calculateAverageTestDurationInsight,
    calculateFlakyRateInsight, calculateFailRateInsight,
    calculateSkippedRateInsight, calculateAverageTestDurationInsight,
    calculateAverageRunDurationInsight.
  subst legacy standalone.
  unfold CtrfInsights.calculateCurrentInsights, calculateCurrentInsights.
  cbv zeta. simpl. rewrite Hk, Hf, Hs, Hd. repeat split.
Qed.

(** ** Average run duration from the report summaries *)

Lemma runDuration_step_fold (reports : list CtrfReport) (acc : Z * Z) :
  let step (acc : Z * Z) (report : CtrfReport) : Z * Z :=
    if negb (validateReportForInsights report) then acc
    else match results report with
         | Some res =>
             let summary := summary res in
             if negb (s_start summary =? 0) && negb (s_stop summary =? 0)
                && (s_start summary <? s_stop summary)
             then (acc.1 + (s_stop summary - s_start summary), acc.2 + 1)
             else acc
         | None => acc
         end in
  foldl step acc reports
  = (acc.1 + sumZ (runDurations reports),
     acc.2 + Z.of_nat (length (runDurations reports))).
Proof.
  intros step.
  assert (∀ acc report, step acc report =
            match runDurationOf report with
            | Some d => (acc.1 + d, acc.2 + 1)
            | None => acc
            end) as Hstep.
  { intros a report. unfold step, runDurationOf.
    destruct (validateReportForInsights report); simpl; [|done].
    destruct (results report) as [res|]; [|done]. cbv zeta.
    by destruct (negb (s_start (summary res) =? 0)
                 && negb (s_stop (summary res) =? 0)
                 && (s_start (summary res) <? s_stop (summary res))). }
  clearbody step. revert acc.
  induction reports as [|report reports IH]; intros [d c].
  - simpl. f_equal; lia.
  - cbn [foldl]. rewrite IH, Hstep. unfold runDurations. cbn [omap list_omap].
    destruct (runDurationOf report) as [x|]; [|done].
    unfold sumZ. cbn [fst snd foldr length]. f_equal; lia.
Qed.

Lemma runDurations_positive reports :
  Forall (fun d => 1 ≤ d) (runDurations reports).
Proof.
  unfold runDurations. induction reports as [|report reports IH]; simpl.
  - constructor.
  - unfold runDurationOf at 1.
    destruct (validateReportForInsights report); [|done].
    destruct (results report) as [res|]; [|done].
    destruct (negb (s_start (summary res) =? 0)
              && negb (s_stop (summary res) =? 0)) ; simpl; [|done].
    destruct (Z.ltb_spec (s_start (summary res)) (s_stop (summary res)));
      [|done].
    simpl. constructor; [lia | done].
Qed.

Lemma sumZ_lower (l : list Z) :
  Forall (fun d => 1 ≤ d) l → Z.of_nat (length l) ≤ sumZ l.
Proof.
  unfold sumZ. induction 1 as [|d l Hd _ IH]; simpl length; simpl foldr; lia.
Qed.

Section AverageLower.
Local Open Scope Q_scope.

Lemma roundHalfAway_lower (x : Q) (lo : Z) :
  inject_Z lo <= x → (lo <= roundHalfAway x)%Z.
Proof.
  intros Hlo. destruct (roundHalfAway_bounds x) as [H1 H2].
  assert (inject_Z (lo - 1) < inject_Z (roundHalfAway x)) as H.
  { unfold Z.sub. rewrite inject_Z_plus, inject_Z_opp.
    change (inject_Z 1) with 1. lra. }
  rewrite <- Zlt_Qlt in H. lia.
Qed.

Lemma average_at_least_one (total count : Z) :
  (0 < count)%Z → (count <= total)%Z →
  ∃ n : Z, toFixed2 (jsDivide total count) = hundredthsOf n ∧ (100 <= n)%Z.
Proof.
  intros Hc Ht. unfold jsDivide.
  destruct (Z.eqb_spec count 0) as [->|_]; [lia|].
  eexists. split; [apply toFixed2_is_hundredths|].
  apply roundHalfAway_lower.
  assert (inject_Z 0 < inject_Z count) as Hc' by (by rewrite <- Zlt_Qlt).
  assert (inject_Z count <= inject_Z total) as Ht' by (by rewrite <- Zle_Qle).
  change (inject_Z 0) with 0 in Hc'. change (inject_Z 100) with 100.
  assert (inject_Z 1 <= inject_Z total / inject_Z count) as Hone
    by (apply Qle_shift_div_l; [done | change (inject_Z 1) with 1; lra]).
  apply roundToDouble_lower in Hone; [|lia].
  change (inject_Z 1) with 1 in Hone. rewrite Qred_correct. lra.
Qed.
End AverageLower.

Lemma hundredthsOf_zero (n : Z) : hundredthsOf n = ofZ 0 → n = 0.
Proof.
  unfold hundredthsOf, ofZ. intros [= H].
  assert (n # 100 == 0)%Q as H0.
  { rewrite <- (Qred_correct (n # 100)), H. reflexivity. }
  unfold Qeq in H0. simpl in H0. lia.
Qed.

(** X10. The average run duration of src/ctrf/insights.ts looks only at the
    reports that pass validation and whose summary has a truthy start, a
    truthy stop and stop > start: it is the sum of their stop - start
    divided by their number, a double quotient printed with two decimals
    (8003 ms over 40 reports print as 200.07); it is 0 exactly when there is
    no such report, and a malformed or untimed report changes nothing. *)
Theorem average_run_duration_from_reports (reports : list CtrfReport) :
  let durations := runDurations reports in
  CtrfInsights.calculateAverageRunDurationFromReports reports
  = (if Z.of_nat (length durations) =? 0 then ofZ 0
     else toFixed2 (jsDivide (sumZ durations) (Z.of_nat (length durations))))
  ∧ (CtrfInsights.calculateAverageRunDurationFromReports reports = ofZ 0
     ↔ durations = [])
  ∧ (∀ report, runDurationOf report = None →
       CtrfInsights.calculateAverageRunDurationFromReports (report :: reports)
       = CtrfInsights.calculateAverageRunDurationFromReports reports).
Proof.
  intros durations.
  assert (∀ l, CtrfInsights.calculateAverageRunDurationFromReports l
    = (if Z.of_nat (length (runDurations l)) =? 0 then ofZ 0
       else toFixed2 (jsDivide (sumZ (runDurations l))
                       (Z.of_nat (length (runDurations l)))))) as Hclosed.
  { intros l. unfold CtrfInsights.calculateAverageRunDurationFromReports.
    pose proof (runDuration_step_fold l (0, 0)) as Hfold.
    cbv zeta in *. rewrite Hfold. simpl.
    by destruct (length (runDurations l)). }
  split; [apply Hclosed|]. split.
  - rewrite Hclosed. fold durations. split.
    + destruct durations as [|d l] eqn:E; [done|]. intros H. exfalso.
      destruct (Z.eqb_spec (Z.of_nat (length (d :: l))) 0) as [H0|_];
        [simpl in H0; lia|].
      pose proof (runDurations_positive reports) as Hpos.
      fold durations in Hpos. rewrite E in Hpos.
      destruct (average_at_least_one (sumZ (d :: l))
                  (Z.of_nat (length (d :: l)))) as (n & Hn & Hge);
        [simpl; lia | by apply sumZ_lower |].
      rewrite Hn in H. apply hundredthsOf_zero in H. lia.
    + intros ->. reflexivity.
  - intros report Hnone. rewrite !Hclosed.
    unfold runDurations. simpl. by rewrite Hnone.
Qed.

Lemma average_run_duration_from_reports_witness :
  let timed := mkReport (Some (mkResults (mkSummary 0 0 0 0 0 0 1000 5000)
                 (TestsArray []) None)) None in
  let untimed := mkReport (Some (mkResults (mkSummary 0 0 0 0 0 0 0 5000)
                   (TestsArray []) None)) None in
  CtrfInsights.calculateAverageRunDurationFromReports [untimed; timed]
  = CtrfInsights.calculateAverageRunDurationFromReports [timed]
  ∧ CtrfInsights.calculateAverageRunDurationFromReports [untimed] = ofZ 0.
Proof.
  intros timed untimed. split.
  - apply (average_run_duration_from_reports [timed]). reflexivity.
  - apply (average_run_duration_from_reports [untimed]). reflexivity.
Defined.

(** ** Attaching test-level insights *)

Lemma aggregate_filter_valid (reports : list CtrfReport) :
  aggregateTestMetricsAcrossReports reports =
  aggregateTestMetricsAcrossReports
    (filter (fun report => validateReportForInsights report = true) reports).
Proof.
  unfold aggregateTestMetricsAcrossReports.
  generalize (∅ : gmap string AggregatedTestMetrics).
  induction reports as [|report reports IH]; intros m; [done|].
  rewrite filter_cons. cbn [foldl].
  destruct (decide (validateReportForInsights report = true)) as [Hv|Hv].
  - cbn [foldl]. apply IH.
  - rewrite foldReport_invalid by (by destruct (validateReportForInsights report)).
    apply IH.
Qed.

(** X11. [addTestInsightsToCurrentReport] hands an invalid current report
    back as it is.  For a valid one it keeps the tests, their order and
    their number, and gives every test the insights computed from the entry
    of its name in the aggregation of the current and previous reports: the
    entry always exists, so no test is left without insights, and its
    appearsInRuns lies between 1 and 1 + the number of previous reports. *)
Theorem addTestInsights_every_test_annotated
    (currentReport : CtrfReport) (previousReports : list CtrfReport) :
  let out := addTestInsightsToCurrentReport currentReport previousReports in
  rw_report out = currentReport
  ∧ (validateReportForInsights currentReport = false → rw_tests out = None)
  ∧ (validateReportForInsights currentReport = true →
     ∃ annotated,
       rw_tests out = Some annotated
       ∧ map tw_test annotated = reportTests currentReport
       ∧ Forall (fun tw =>
           ∃ metrics ins,
             aggregateTestMetricsAcrossReports (currentReport :: previousReports)
               !! name (tw_test tw) = Some metrics
             ∧ tw_insights tw = Some ins
             ∧ ins = calculateTestInsights (name (tw_test tw)) metrics
             ∧ 1 ≤ ti_appearsInRuns ins ≤ 1 + Z.of_nat (length previousReports))
         annotated).
Proof.
  intros out. subst out. unfold addTestInsightsToCurrentReport.
  destruct (validateReportForInsights currentReport) eqn:Hv; simpl.
  - split; [done|]. split; [done|]. intros _.
    eexists. split; [reflexivity|].
    set (testMetrics :=
           aggregateTestMetricsAcrossReports (currentReport :: previousReports)).
    assert (∀ test, test ∈ reportTests currentReport →
              is_Some (testMetrics !! name test)) as Hfound.
    { intros test Hin. unfold testMetrics. rewrite aggregate_lookup_closed.
      rewrite decide_True; [eauto|].
      rewrite testsSeen_cons, testsOfValid_valid, map_app by done.
      apply elem_of_app. left. by apply list_elem_of_fmap_2. }
    split.
    + induction (reportTests currentReport) as [|test ts IH]; [done|].
      simpl. rewrite IH by (intros; apply Hfound; by right).
      f_equal. by destruct (testMetrics !! name test).
    + apply Forall_forall. intros tw Htw.
      apply list_elem_of_fmap in Htw as (test & -> & Hin).
      destruct (Hfound test Hin) as [metrics Hm]. simpl. rewrite Hm. simpl.
      exists metrics, (calculateTestInsights (name test) metrics).
      split; [done|]. split; [done|]. split; [done|].
      destruct (entry_invariants _ _ _ Hm) as (_ & _ & _ & _ & _ & H1 & H2 & _).
      simpl in *. lia.
  - split; [done|]. split; [done|]. done.
Qed.

Lemma addTestInsights_every_test_annotated_witness :
  let current := mkReport (Some (mkResults (mkSummary 2 1 1 0 0 0 1000 5000)
                   (TestsArray [mkTest "a" passed 100 (Some 1) None;
                                mkTest "b" failed 50 None None]) None)) None in
  let older := mkReport (Some (mkResults (mkSummary 1 0 1 0 0 0 10 50)
                 (TestsArray [mkTest "a" failed 120 None None]) None)) None in
  ∃ annotated,
    rw_tests (addTestInsightsToCurrentReport current [older]) = Some annotated
    ∧ map tw_test annotated = reportTests current
    ∧ Forall (fun tw => is_Some (tw_insights tw)) annotated.
Proof.
  intros current older.
  destruct (addTestInsights_every_test_annotated current [older])
    as (_ & _ & Hvalid).
  destruct (Hvalid eq_refl) as (annotated & Hout & Htests & Hall).
  exists annotated. split; [done|]. split; [done|].
  eapply Forall_impl; [exact Hall|].
  intros tw (metrics & ins & _ & Hins & _). eauto.
Defined.

(** X12. The result of [addTestInsightsToCurrentReport] does not depend on
    the order of the previous reports, and previous reports that fail
    validation change nothing. *)
Theorem addTestInsights_previous_reports
    (currentReport : CtrfReport) (previousReports : list CtrfReport) :
  (∀ reordered, previousReports ≡ₚ reordered →
     addTestInsightsToCurrentReport currentReport previousReports
     = addTestInsightsToCurrentReport currentReport reordered)
  ∧ addTestInsightsToCurrentReport currentReport previousReports
    = addTestInsightsToCurrentReport currentReport
        (filter (fun report => validateReportForInsights report = true)
           previousReports).
Proof.
  unfold addTestInsightsToCurrentReport. split.
  - intros reordered Hperm.
    destruct (validateReportForInsights currentReport); simpl; [|done].
    rewrite (aggregate_Permutation (currentReport :: previousReports)
               (currentReport :: reordered)) by (by constructor).
    done.
  - destruct (validateReportForInsights currentReport) eqn:Hv; simpl; [|done].
    rewrite (aggregate_filter_valid (currentReport :: previousReports)).
    rewrite (aggregate_filter_valid (currentReport :: filter _ previousReports)).
    rewrite !filter_cons, !decide_True by done.
    by rewrite list_filter_filter_l.
Qed.

Lemma addTestInsights_previous_reports_witness :
  let current := mkReport (Some (mkResults (mkSummary 1 1 0 0 0 0 1000 5000)
                   (TestsArray [mkTest "a" passed 100 (Some 1) None]) None)) None in
  let older := mkReport (Some (mkResults (mkSummary 1 0 1 0 0 0 10 50)
                 (TestsArray [mkTest "a" failed 120 None None]) None)) None in
  addTestInsightsToCurrentReport current [older; mkReport None None]
  = addTestInsightsToCurrentReport current [mkReport None None; older].
Proof.
  intros current older.
  apply (proj1 (addTestInsights_previous_reports current
                  [older; mkReport None None])).
  apply perm_swap.
Defined.

(** ** More on the previous-runs extractor *)

Lemma extractFrom_app l1 l2 k :
  extractFrom k (l1 ++ l2) =
  records1 ← extractFrom k l1;
  records2 ← extractFrom (k + length l1) l2;
  Some (records1 ++ records2).
Proof.
  revert k. induction l1 as [|report l1 IH]; intros k; simpl.
  - rewrite Nat.add_0_r. by destruct (extractFrom k l2).
  - destruct (previousRunOf report k) as [record|]; simpl; [|done].
    rewrite IH. replace (S k + length l1)%nat with (k + S (length l1))%nat by lia.
    destruct (extractFrom (S k) l1) as [records1|]; simpl; [|done].
    by destruct (extractFrom (k + S (length l1)) l2).
Qed.

(** X13. The extractor has no validation guard: a report without results,
    or whose results.tests is not an array, makes the whole extraction raise
    wherever it stands in the list, so the records of all the other reports
    are lost; the aggregator, given the same list, skips that report. *)
Theorem extraction_raises_on_malformed
    (before after : list CtrfReport) (bad : CtrfReport) :
  validateReportForInsights bad = false →
  extractPreviousRunsData (before ++ bad :: after) = None
  ∧ aggregateTestMetricsAcrossReports (before ++ bad :: after)
    = aggregateTestMetricsAcrossReports (before ++ after).
Proof.
  intros Hbad. split.
  - unfold extractPreviousRunsData. rewrite extractFrom_app.
    destruct (extractFrom 0 before) as [records|]; simpl; [|done].
    assert (previousRunOf bad (length before) = None) as ->; [|done].
    unfold previousRunOf, validateReportForInsights in *.
    destruct (results bad) as [res|]; [|done].
    by destruct (tests res).
  - rewrite (aggregate_filter_valid (before ++ bad :: after)),
      (aggregate_filter_valid (before ++ after)).
    rewrite !filter_app, filter_cons.
    destruct (decide (validateReportForInsights bad = true)) as [Hv|_]; [|done].
    by rewrite Hbad in Hv.
Qed.

Lemma extraction_raises_on_malformed_witness :
  let good := mkReport (Some (mkResults (mkSummary 1 1 0 0 0 0 1000 5000)
                (TestsArray [mkTest "a" passed 100 None None]) None)) None in
  let bad := mkReport (Some (mkResults (mkSummary 1 1 0 0 0 0 1000 5000)
               TestsMissing None)) None in
  extractPreviousRunsData [good; bad; good] = None
  ∧ aggregateTestMetricsAcrossReports [good; bad; good]
    = aggregateTestMetricsAcrossReports [good; good].
Proof.
  intros good bad.
  exact (extraction_raises_on_malformed [good] [good] bad eq_refl).
Defined.

(** X14. Every extracted record is a function of its own report and its
    position: the record at an index is what the callback yields for the
    report at that index, and extracting a concatenation gives the records of
    the first list followed by those of the second computed at indices
    shifted by the length of the first. *)
Theorem extraction_is_positional (reports : list CtrfReport) :
  (∀ records index report,
     extractPreviousRunsData reports = Some records →
     reports !! index = Some report →
     records !! index = previousRunOf report index)
  ∧ (∀ more,
       extractPreviousRunsData (reports ++ more) =
       records1 ← extractPreviousRunsData reports;
       records2 ← extractFrom (length reports) more;
       Some (records1 ++ records2)).
Proof.
  split.
  - intros records index report Hex Hreport.
    destruct (extractFrom_lookup _ _ _ Hex) as [_ Hnth].
    destruct (Hnth index report Hreport) as (record & -> & Hrun).
    by rewrite <- Hrun.
  - intros more. unfold extractPreviousRunsData.
    by rewrite extractFrom_app.
Qed.

Lemma extraction_is_positional_witness :
  let report := mkReport (Some (mkResults (mkSummary 5 5 0 0 0 0 1000 5000)
                  (TestsArray []) None)) None in
  ∃ records,
    extractPreviousRunsData [report; report] = Some records
    ∧ records !! 1%nat = previousRunOf report 1
    ∧ run_id <$> records !! 1%nat = Some "1000_1".
Proof.
  intros report. eexists. split; [reflexivity|].
  split; [|reflexivity].
  apply (proj1 (extraction_is_positional [report; report])); reflexivity.
Defined.

Lemma explicit_flag_is_flaky test : flaky test = Some true → isTestFlaky test = true.
Proof. intros H. apply isTestFlaky_true_iff. by left. Qed.

Lemma sumAll_flakyOf_count ts :
  sumAll flakyOf ts
  = Z.of_nat (length (filter (fun test => isTestFlaky test = true) ts)).
Proof.
  unfold sumAll. induction ts as [|test ts IH]; [done|].
  rewrite filter_cons. cbn [foldr]. rewrite IH. unfold flakyOf.
  destruct (decide (isTestFlaky test = true)) as [H|H].
  - rewrite H. simpl length. lia.
  - apply not_true_is_false in H. rewrite H. lia.
Qed.

(** X15. The flaky count of an extracted record never exceeds the number of
    tests of the report that [isTestFlaky] classifies as flaky, which is the
    consolidated totalResultsFlaky the insights engine computes for that
    report alone, and that never exceeds the number of tests. *)
Theorem historical_flaky_at_most_engine_flaky
    (report : CtrfReport) (index : nat) (record : PreviousRunData) :
  previousRunOf report index = Some record →
  let rm := consolidateTestMetricsToRunMetrics
              (aggregateTestMetricsAcrossReports [report]) in
  Z.of_nat (run_flaky record) ≤ totalResultsFlaky rm
  ∧ totalResultsFlaky rm
    = Z.of_nat (length (filter (fun test => isTestFlaky test = true)
                          (reportTests report)))
  ∧ totalResultsFlaky rm ≤ Z.of_nat (length (reportTests report)).
Proof.
  intros Hrun rm.
  destruct (previousRunOf_fields _ _ _ Hrun)
    as (res & ts & Hres & Hts & _ & _ & _ & Hflaky & _).
  assert (validateReportForInsights report = true) as Hv
    by (unfold validateReportForInsights; by rewrite Hres, Hts).
  assert (reportTests report = ts) as Hrt
    by (unfold reportTests; by rewrite Hres, Hts).
  destruct (consolidate_totals_closed [report])
    as (_ & _ & _ & _ & _ & _ & Hk & _).
  fold rm in Hk. rewrite Hk. unfold testsSeen. simpl.
  rewrite app_nil_r, testsOfValid_valid, Hrt by done.
  rewrite sumAll_flakyOf_count, Hflaky.
  split; [|split; [done|]].
  - apply inj_le. clear. induction ts as [|test ts IH]; [done|].
    rewrite !filter_cons.
    destruct (decide (flaky test = Some true)) as [Hf|Hf].
    + rewrite decide_True by (by apply explicit_flag_is_flaky). simpl. lia.
    + destruct (decide (isTestFlaky test = true)); simpl; lia.
  - apply inj_le, length_filter.
Qed.

Lemma historical_flaky_at_most_engine_flaky_witness :
  let report := mkReport (Some (mkResults (mkSummary 2 1 1 0 0 0 1000 5000)
                  (TestsArray [mkTest "retried" passed 80 (Some 2) None;
                               mkTest "flagged" failed 30 None (Some true)])
                  None)) None in
  ∃ record,
    previousRunOf report 0 = Some record
    ∧ run_flaky record = 1%nat
    ∧ Z.of_nat (run_flaky record)
      ≤ totalResultsFlaky (consolidateTestMetricsToRunMetrics
                             (aggregateTestMetricsAcrossReports [report])).
Proof.
  intros report. eexists. split; [reflexivity|]. split; [reflexivity|].
  match goal with
  | |- Z.of_nat (run_flaky ?record) ≤ _ =>
      apply (historical_flaky_at_most_engine_flaky report 0 record eq_refl)
  end.
Defined.

(** X16. The status of an extracted record is decided by summary.failed and
    summary.passed alone: 'passed' exactly when failed is not positive (so a
    run with no tests, or with skipped tests only, is 'passed'), 'mixed'
    exactly when both are positive, 'failed' exactly when failed is positive
    and passed is not.  The passed, failed and skipped counts are copied from
    the summary, not counted from the tests. *)
Theorem historical_status_iff
    (report : CtrfReport) (index : nat) (record : PreviousRunData) :
  previousRunOf report index = Some record →
  ∃ res,
    results report = Some res
    ∧ (run_status record = runPassed ↔ s_failed (summary res) ≤ 0)
    ∧ (run_status record = runMixed ↔
         0 < s_failed (summary res) ∧ 0 < s_passed (summary res))
    ∧ (run_status record = runFailed ↔
         0 < s_failed (summary res) ∧ s_passed (summary res) ≤ 0)
    ∧ run_passed record = s_passed (summary res)
    ∧ run_failed record = s_failed (summary res)
    ∧ run_skipped record = s_skipped (summary res)
    ∧ run_buildNumber record = environment res ≫= buildNumber
    ∧ run_buildUrl record = environment res ≫= buildUrl.
Proof.
  unfold previousRunOf. destruct (results report) as [res|]; [|done].
  destruct (tests res) as [| |ts]; [done..|]. intros [= <-].
  exists res. simpl. split; [done|].
  destruct (Z.ltb_spec 0 (s_failed (summary res)));
    destruct (Z.ltb_spec 0 (s_passed (summary res)));
    repeat split; try done; try lia; intros; try discriminate; lia.
Qed.

Lemma historical_status_iff_witness :
  let report := mkReport (Some (mkResults (mkSummary 3 0 0 3 0 0 1000 5000)
                  (TestsArray []) None)) None in
  ∃ record, previousRunOf report 0 = Some record
            ∧ run_status record = runPassed.
Proof.
  intros report. eexists. split; [reflexivity|].
  match goal with
  | |- run_status ?record = _ =>
      destruct (historical_status_iff report 0 record eq_refl)
        as (res & [= <-] & Hpassed & _)
  end.
  apply Hpassed. simpl. lia.
Defined.

(** ** Fallback ids *)

Lemma occursIn_app c (a b : string) :
  occursIn c (a +:+ b) = occursIn c a || occursIn c b.
Proof.
  induction a as [|c' a IH]; simpl; [done|]. rewrite IH. by rewrite orb_assoc.
Qed.

Lemma pretty_N_go_no_underscore (x : N) (s : string) :
  occursIn "_"%char s = false → occursIn "_"%char (pretty_N_go x s) = false.
Proof.
  revert s. induction (N.lt_wf_0 x) as [x _ IH]; intros s Hs.
  assert (x = 0 ∨ 0 < x)%N as [->|Hpos] by lia.
  - by rewrite pretty_N_go_0.
  - rewrite pretty_N_go_step by done. apply IH.
    { by apply N.div_lt. }
    simpl. rewrite Hs, orb_false_r.
    unfold pretty_N_char. by repeat case_match.
Qed.

Lemma pretty_N_no_underscore (x : N) : occursIn "_"%char (pretty x) = false.
Proof.
  unfold pretty, pretty_N. case_decide; [done|].
  by apply pretty_N_go_no_underscore.
Qed.

Lemma pretty_Z_no_underscore (z : Z) : occursIn "_"%char (pretty z) = false.
Proof.
  destruct z as [|p|p]; [done| |].
  - apply (pretty_N_no_underscore (N.pos p)).
  - change (pretty (Z.neg p)) with ("-" +:+ pretty (N.pos p)).
    rewrite occursIn_app, pretty_N_no_underscore. done.
Qed.

Lemma pretty_nat_no_underscore (i : nat) : occursIn "_"%char (pretty i) = false.
Proof. apply (pretty_N_no_underscore (N.of_nat i)). Qed.

Lemma underscore_split_unique (a b s t : string) :
  occursIn "_"%char a = false → occursIn "_"%char b = false →
  a +:+ "_" +:+ s = b +:+ "_" +:+ t → a = b ∧ s = t.
Proof.
  change ("_" +:+ s) with (String "_" s). change ("_" +:+ t) with (String "_" t).
  revert b. induction a as [|c a IH]; intros [|d b]; cbn.
  - intros _ _ [= ->]. done.
  - intros _ Hb [= <- _]. by rewrite bool_decide_eq_true_2 in Hb.
  - intros Ha _ [= -> _]. by rewrite bool_decide_eq_true_2 in Ha.
  - intros [_ Ha]%orb_false_elim [_ Hb]%orb_false_elim [= -> Hrest].
    destruct (IH b Ha Hb Hrest) as [-> ->]. done.
Qed.

Lemma previousRunOf_fallback_id report index record :
  previousRunOf report index = Some record →
  truthyString (run_buildNumber record) = false →
  run_id record = pretty (run_date record) +:+ "_" +:+ pretty index.
Proof.
  unfold previousRunOf. destruct (results report) as [res|]; [|done].
  destruct (tests res) as [| |ts]; [done..|]. intros [= <-]. simpl.
  by intros ->.
Qed.

(** X17. Within one extraction the fallback ids never collide: two records
    at different positions that both lack a usable build number (absent or
    empty) have different ids, and equal fallback ids mean the same position
    and the same start time. *)
Theorem fallback_ids_distinct
    (reports : list CtrfReport) (records : list PreviousRunData)
    (i j : nat) (record_i record_j : PreviousRunData) :
  extractPreviousRunsData reports = Some records →
  records !! i = Some record_i →
  records !! j = Some record_j →
  truthyString (run_buildNumber record_i) = false →
  truthyString (run_buildNumber record_j) = false →
  run_id record_i = run_id record_j →
  i = j ∧ run_date record_i = run_date record_j.
Proof.
  intros Hex Hi Hj Hbi Hbj Hid.
  destruct (extractFrom_lookup _ _ _ Hex) as [Hlen Hnth].
  assert (∀ k record, records !! k = Some record →
            ∃ report, previousRunOf report k = Some record) as Hsrc.
  { intros k record Hk.
    destruct (reports !! k) as [report|] eqn:Hr.
    - destruct (Hnth k report Hr) as (record' & Hk' & Hrun).
      rewrite Hk in Hk'. injection Hk' as <-. eauto.
    - apply lookup_ge_None in Hr. apply lookup_lt_Some in Hk. lia. }
  destruct (Hsrc i record_i Hi) as [ri Hri].
  destruct (Hsrc j record_j Hj) as [rj Hrj].
  rewrite (previousRunOf_fallback_id _ _ _ Hri Hbi) in Hid.
  rewrite (previousRunOf_fallback_id _ _ _ Hrj Hbj) in Hid.
  apply underscore_split_unique in Hid as [Hdate Hindex];
    [|apply pretty_Z_no_underscore..].
  split; [by apply (inj pretty) | by apply (inj pretty)].
Qed.

Lemma fallback_ids_distinct_witness :
  let report := mkReport (Some (mkResults (mkSummary 5 5 0 0 0 0 1000 5000)
                  (TestsArray []) (Some (mkEnvironment (Some "") None)))) None in
  ∃ records first second,
    extractPreviousRunsData [report; report] = Some records
    ∧ records !! 0%nat = Some first
    ∧ records !! 1%nat = Some second
    ∧ run_id first ≠ run_id second.
Proof.
  intros report. eexists. eexists. eexists.
  split; [reflexivity|]. split; [reflexivity|]. split; [reflexivity|].
  intros Hid.
  match goal with
  | H : run_id ?first = run_id ?second |- _ =>
      destruct (fallback_ids_distinct [report; report] _ 0 1 first second
                  eq_refl eq_refl eq_refl eq_refl eq_refl H) as [Hij _]
  end.
  discriminate.
Defined.

(** ** Template helpers *)

Example escapeMarkdown_example :
  Helpers.escapeMarkdown (Helpers.units "Hello *world*")
  = Helpers.units "Hello \*world\*".
Proof. reflexivity. Qed.

Example splitLines_example :
  Helpers.splitLines [76; 49; 10; 10; 32; 9; 10; 76; 50]%N = [[76; 49]; [76; 50]]%N.
Proof. reflexivity. Qed.

Example sliceString_example :
  Helpers.sliceString
    (Helpers.units "d9a40a70dd26e3b309e9d106adaca2417d4ffb1e") 0 7
  = Helpers.units "d9a40a7".
Proof. reflexivity. Qed.

Example stripSuitePrefix_example :
  Helpers.stripSuitePrefix (Helpers.units
    "helpers.test.ts > getEmoji - returns the correct emoji for passed")
  = Helpers.units "returns the correct emoji for passed".
Proof. reflexivity. Qed.

Lemma backslash_is_special : (92%N ∈ Helpers.markdownSpecials).
Proof. vm_compute. left. Qed.

(** X18. [escapeMarkdown] loses nothing: two different strings never escape
    to the same text (the backslash it inserts is itself in the escaped
    class). *)
Theorem escapeMarkdown_injective (a b : Helpers.JsString) :
  Helpers.escapeMarkdown a = Helpers.escapeMarkdown b → a = b.
Proof.
  unfold Helpers.escapeMarkdown. revert b.
  induction a as [|u a IH]; intros [|v b]; simpl.
  - done.
  - case_bool_decide; discriminate.
  - case_bool_decide; discriminate.
  - destruct (decide (u ∈ Helpers.markdownSpecials)) as [Hu|Hu];
      destruct (decide (v ∈ Helpers.markdownSpecials)) as [Hv|Hv];
      rewrite ?(bool_decide_eq_true_2 _ Hu), ?(bool_decide_eq_false_2 _ Hu),
              ?(bool_decide_eq_true_2 _ Hv), ?(bool_decide_eq_false_2 _ Hv);
      simpl.
    + intros [= -> H]. f_equal. by apply IH.
    + intros [= <- _]. destruct Hv. apply backslash_is_special.
    + intros [= -> _]. destruct Hu. apply backslash_is_special.
    + intros [= -> H]. f_equal. by apply IH.
Qed.

Lemma escapeMarkdown_injective_witness :
  Helpers.units "a*b" = Helpers.units "a*b".
Proof.
  apply (escapeMarkdown_injective (Helpers.units "a*b") (Helpers.units "a*b")).
  reflexivity.
Defined.

(** X19. [escapeMarkdown] works unit by unit: it distributes over
    concatenation, leaves a string without special characters unchanged,
    and lengthens the string by exactly the number of special characters,
    each of which ends up right after an inserted backslash. *)
Theorem escapeMarkdown_structure :
  (∀ a b, Helpers.escapeMarkdown (a ++ b)
          = Helpers.escapeMarkdown a ++ Helpers.escapeMarkdown b)
  ∧ (∀ s, Forall (fun u => u ∉ Helpers.markdownSpecials) s →
          Helpers.escapeMarkdown s = s)
  ∧ (∀ s, length (Helpers.escapeMarkdown s)
          = (length s
             + length (filter (fun u => u ∈ Helpers.markdownSpecials) s))%nat)
  ∧ (∀ a u b, u ∈ Helpers.markdownSpecials →
       Helpers.escapeMarkdown (a ++ u :: b)
       = Helpers.escapeMarkdown a ++ [92%N; u] ++ Helpers.escapeMarkdown b).
Proof.
  unfold Helpers.escapeMarkdown. split; [|split; [|split]].
  - intros a b. apply flat_map_app.
  - intros s Hs. induction Hs as [|u s Hu _ IH]; simpl; [done|].
    by rewrite bool_decide_eq_false_2, IH.
  - intros s. induction s as [|u s IH]; [done|].
    rewrite filter_cons. cbn [flat_map]. rewrite length_app, IH.
    destruct (decide (u ∈ Helpers.markdownSpecials)) as [Hu|Hu].
    + rewrite bool_decide_eq_true_2 by done. simpl. lia.
    + rewrite bool_decide_eq_false_2 by done. simpl. lia.
  - intros a u b Hu. rewrite flat_map_app. simpl.
    by rewrite bool_decide_eq_true_2.
Qed.

(** ** splitLines *)

Lemma splitNewline_nonempty s : Helpers.splitNewline s ≠ [].
Proof.
  destruct s as [|u s]; simpl; [done|].
  case_bool_decide; [done|]. by destruct (Helpers.splitNewline s).
Qed.

Lemma splitNewline_app a b :
  Helpers.splitNewline (a ++ 10%N :: b)
  = Helpers.splitNewline a ++ Helpers.splitNewline b.
Proof.
  induction a as [|u a IH]; simpl; [done|].
  case_bool_decide; [by rewrite IH|].
  rewrite IH. pose proof (splitNewline_nonempty a).
  by destruct (Helpers.splitNewline a).
Qed.

Lemma splitNewline_single s : 10%N ∉ s → Helpers.splitNewline s = [s].
Proof.
  induction s as [|u s IH]; simpl; [done|].
  intros [Hu Hs]%not_elem_of_cons.
  rewrite bool_decide_eq_false_2 by done. by rewrite IH.
Qed.

Lemma splitNewline_no_newline s line :
  line ∈ Helpers.splitNewline s → 10%N ∉ line.
Proof.
  revert line. induction s as [|u s IH]; intros line; simpl.
  - intros ->%list_elem_of_singleton. apply not_elem_of_nil.
  - case_bool_decide as Hu.
    + intros [->|Hin]%elem_of_cons; [apply not_elem_of_nil | by apply IH].
    + destruct (Helpers.splitNewline s) as [|l ls] eqn:E.
      * intros ->%list_elem_of_singleton.
        intros [?|H]%elem_of_cons; [done | by apply not_elem_of_nil in H].
      * intros [->|Hin]%elem_of_cons.
        -- intros [?|Hl]%elem_of_cons; [done|].
           apply (IH l); [left | done].
        -- apply IH. by right.
Qed.

(** X20. [splitLines] returns the pieces between line feeds that are not
    blank, in order: the result of a text joined by a line feed is the
    concatenation of the results of its two parts, a text without line feed
    gives itself or nothing when it trims to the empty string, and no line
    returned contains a line feed, is empty or trims to the empty string. *)
Theorem splitLines_spec :
  (∀ a b, Helpers.splitLines (a ++ 10%N :: b)
          = Helpers.splitLines a ++ Helpers.splitLines b)
  ∧ (∀ s, 10%N ∉ s →
          Helpers.splitLines s = if Helpers.trimsToEmpty s then [] else [s])
  ∧ (∀ s line, line ∈ Helpers.splitLines s →
       (10%N ∉ line) ∧ line ≠ [] ∧ Helpers.trimsToEmpty line = false
       ∧ ∃ u, u ∈ line ∧ Helpers.isWhiteSpace u = false).
Proof.
  unfold Helpers.splitLines. split; [|split].
  - intros a b. by rewrite splitNewline_app, filter_app.
  - intros s Hs. rewrite splitNewline_single by done.
    rewrite filter_cons, filter_nil.
    by destruct (Helpers.trimsToEmpty s).
  - intros s line [Hblank Hin]%list_elem_of_filter.
    split; [by eapply splitNewline_no_newline|].
    split; [by intros ->|]. split; [done|].
    unfold Helpers.trimsToEmpty in Hblank. clear Hin.
    induction line as [|u line IH]; [done|]. simpl in Hblank.
    destruct (Helpers.isWhiteSpace u) eqn:Hu.
    + destruct (IH Hblank) as (w & Hw & Hws). exists w. split; [by right|done].
    + exists u. split; [left | done].
Qed.

(** ** sliceString *)

Lemma clampIndex_range len i : 0 ≤ len → 0 ≤ Helpers.clampIndex len i ≤ len.
Proof.
  intros Hlen. unfold Helpers.clampIndex. destruct (Z.ltb_spec i 0); lia.
Qed.

(** X21. [sliceString] clamps both indices into the string (a negative
    index counts from the end): the result has length max(0, to - from) for
    the clamped indices, slicing from 0 to the length returns the string,
    slicing from -k to the length returns its last k units, an end before
    the start gives the empty string, and for indices 0 <= a <= b <= c the
    slices a..b and b..c concatenate to the slice a..c. *)
Theorem sliceString_spec (str : Helpers.JsString) :
  let len := Z.of_nat (length str) in
  (∀ start stop,
     Z.of_nat (length (Helpers.sliceString str start stop))
     = Z.max 0 (Helpers.clampIndex len stop - Helpers.clampIndex len start))
  ∧ Helpers.sliceString str 0 len = str
  ∧ (∀ k, 0 < k ≤ len →
       Helpers.sliceString str (- k) len = drop (Z.to_nat (len - k)) str)
  ∧ (∀ start stop, 0 ≤ stop ≤ start → Helpers.sliceString str start stop = [])
  ∧ (∀ a b c, 0 ≤ a ≤ b → b ≤ c →
       Helpers.sliceString str a b ++ Helpers.sliceString str b c
       = Helpers.sliceString str a c).
Proof.
  intros len. assert (0 ≤ len) as Hlen by (unfold len; lia).
  split; [|split; [|split; [|split]]].
  - intros start stop. unfold Helpers.sliceString. fold len.
    pose proof (clampIndex_range len start Hlen).
    pose proof (clampIndex_range len stop Hlen).
    destruct (Z.leb_spec (Helpers.clampIndex len stop)
                (Helpers.clampIndex len start)); [simpl; lia|].
    rewrite length_take, length_drop. unfold len in *. lia.
  - unfold Helpers.sliceString, Helpers.clampIndex. fold len. cbv zeta.
    change (0 <? 0) with false. cbv iota.
    destruct (Z.ltb_spec len 0); [lia|].
    rewrite Z.min_id, (Z.min_l 0 len) by lia.
    destruct (Z.leb_spec len 0) as [H0|H0].
    + assert (length str = 0%nat) as Hnil by (unfold len in *; lia).
      by destruct str.
    + rewrite Z.sub_0_r. change (Z.to_nat 0) with 0%nat. rewrite drop_0.
      apply take_ge. unfold len. lia.
  - intros k Hk. unfold Helpers.sliceString, Helpers.clampIndex. fold len.
    destruct (Z.ltb_spec (- k) 0); [|lia].
    destruct (Z.ltb_spec len 0); [lia|].
    rewrite Z.min_id, Z.max_l by lia.
    destruct (Z.leb_spec len (len + - k)); [lia|].
    replace (len + - k) with (len - k) by lia.
    apply take_ge. rewrite length_drop. unfold len in *. lia.
  - intros start stop Hs. unfold Helpers.sliceString, Helpers.clampIndex.
    fold len.
    destruct (Z.ltb_spec stop 0); [lia|]. destruct (Z.ltb_spec start 0); [lia|].
    destruct (Z.leb_spec (Z.min stop len) (Z.min start len)); [done | lia].
  - intros a b c Hab Hbc. unfold Helpers.sliceString, Helpers.clampIndex.
    fold len.
    destruct (Z.ltb_spec a 0); [lia|]. destruct (Z.ltb_spec b 0); [lia|].
    destruct (Z.ltb_spec c 0); [lia|].
    set (a' := Z.min a len). set (b' := Z.min b len). set (c' := Z.min c len).
    assert (0 ≤ a' ≤ b' ∧ b' ≤ c' ∧ c' ≤ len) as (Ha & Hb & Hc)
      by (unfold a', b', c'; lia).
    destruct (Z.leb_spec b' a'), (Z.leb_spec c' b'), (Z.leb_spec c' a');
      try lia; simpl.
    + done.
    + by replace b' with a' by lia.
    + rewrite app_nil_r. by replace b' with c' by lia.
    + replace (Z.to_nat (c' - a'))
        with (Z.to_nat (b' - a') + Z.to_nat (c' - b'))%nat by lia.
      rewrite <- take_take_drop, drop_drop. do 3 f_equal. lia.
Qed.

Lemma sliceString_spec_witness :
  Helpers.sliceString (Helpers.units "d9a40a70dd26") (-4) 12
  = Helpers.units "dd26"
  ∧ Helpers.sliceString (Helpers.units "d9a40a70dd26") 0 3
    ++ Helpers.sliceString (Helpers.units "d9a40a70dd26") 3 7
    = Helpers.sliceString (Helpers.units "d9a40a70dd26") 0 7.
Proof.
  destruct (sliceString_spec (Helpers.units "d9a40a70dd26"))
    as (_ & _ & Hlast & _ & Hcat).
  split.
  - apply (Hlast 4). simpl. lia.
  - apply Hcat; lia.
Defined.

(** ** stripSuitePrefix *)

Lemma indexOf_absent (pattern str : list N) :
  (∀ pre post, str ≠ pre ++ pattern ++ post) →
  Helpers.indexOf pattern str = None.
Proof.
  induction str as [|u str IH]; intros Hno; simpl.
  - rewrite bool_decide_eq_false_2; [done|].
    intros [k Hk]. by apply (Hno [] k).
  - rewrite bool_decide_eq_false_2.
    + rewrite IH; [done|]. intros pre post ->. by apply (Hno (u :: pre) post).
    + intros [k Hk]. by apply (Hno [] k).
Qed.

Lemma indexOf_after_suite (suite rest : list N) :
  45%N ∉ suite →
  Helpers.indexOf Helpers.separator (suite ++ Helpers.separator ++ rest)
  = Some (length suite).
Proof.
  change Helpers.separator with [32; 45; 32]%N.
  induction suite as [|u suite IH]; intros Hdash.
  - cbn [app Helpers.indexOf length].
    rewrite bool_decide_eq_true_2; [done|]. by exists rest.
  - apply not_elem_of_cons in Hdash as [Hu Hsuite].
    rewrite <- app_comm_cons. cbn [Helpers.indexOf length].
    rewrite bool_decide_eq_false_2.
    + by rewrite IH.
    + intros [k Hk]. destruct suite as [|v suite]; simplify_eq/=.
      apply Hsuite. left.
Qed.

(** X22. [stripSuitePrefix] cuts at the first " - ": a name without that
    separator is returned unchanged, a name made of a suite free of '-', the
    separator and a rest is reduced to the rest (whatever the rest contains),
    the result is always a suffix of the name, and the empty name gives the
    empty string. *)
Theorem stripSuitePrefix_spec :
  (∀ testName,
     (∀ pre post, testName ≠ pre ++ Helpers.separator ++ post) →
     Helpers.stripSuitePrefix testName = testName)
  ∧ (∀ suite rest, 45%N ∉ suite →
       Helpers.stripSuitePrefix (suite ++ Helpers.separator ++ rest) = rest)
  ∧ (∀ testName, Helpers.stripSuitePrefix testName `suffix_of` testName)
  ∧ Helpers.stripSuitePrefix [] = [].
Proof.
  split; [|split; [|split]].
  - intros testName Hno. unfold Helpers.stripSuitePrefix.
    case_bool_decide as Hnil; [by rewrite Hnil|].
    by rewrite indexOf_absent.
  - intros suite rest Hdash. unfold Helpers.stripSuitePrefix.
    rewrite bool_decide_eq_false_2.
    + rewrite indexOf_after_suite by done.
      rewrite drop_app_add'; [|done].
      change Helpers.separator with [32; 45; 32]%N. done.
    + change Helpers.separator with [32; 45; 32]%N.
      by destruct suite.
  - intros testName. unfold Helpers.stripSuitePrefix.
    case_bool_decide; [by exists testName; rewrite app_nil_r|].
    destruct (Helpers.indexOf Helpers.separator testName) as [i|].
    + exists (take (i + 3) testName). by rewrite take_drop.
    + by exists [].
  - reflexivity.
Qed.

Lemma stripSuitePrefix_spec_witness :
  Helpers.stripSuitePrefix
    (Helpers.units "Suite > case" ++ Helpers.separator
       ++ Helpers.units "handles a - b")
  = Helpers.units "handles a - b".
Proof.
  destruct stripSuitePrefix_spec as (_ & Hsuite & _).
  apply Hsuite. vm_compute.
  intros H. repeat (apply elem_of_cons in H as [H|H]; [discriminate|]).
  by apply not_elem_of_nil in H.
Defined.
